(** * nasdaq_returns: price history, daily and cumulative returns

    A shallow embedding of [scripts/nasdaq_returns.py].  The script is a
    linear pipeline over pandas objects:

      parse_args -> fetch_price_history -> compute_returns
                 -> summarize_returns -> plot_returns

    Data frames are mutable objects: they live in a heap and the
    functions of the script receive and return references.  Exceptions,
    the heap and what the run prints or shows are threaded by a small
    state-and-error monad.  Column arithmetic is written once, over an
    interface of float operations, and read at two instances: exact
    arithmetic on the rationals extended with the IEEE special values
    (infinities and NaN), and the kernel's binary64 floats. *)

From Stdlib Require Import QArith Qring Qfield Floats.
From stdpp Require Import gmap strings list fin_maps pretty.

Set Default Proof Using "Type".
Local Open Scope string_scope.

(* ================================================================== *)
(** * Float arithmetic *)
(* ================================================================== *)

(** The operations on column values the script relies on. [isnan] is
    what pandas calls a missing value in a float column. *)
Class FloatOps (F : Type) := {
  fadd : F -> F -> F;
  fsub : F -> F -> F;
  fmul : F -> F -> F;
  fdiv : F -> F -> F;
  isnan : F -> bool;
  fnan : F;
  lit0 : F;     (* the literal 0.0 *)
  lit1 : F;     (* the literal 1 *)
  lit100 : F    (* the literal 100 *)
}.

(** ** Exact arithmetic with the IEEE special values

    No rounding, no overflow and an unsigned zero; everything else
    follows IEEE 754: a non-zero number divided by zero is an infinity
    of the number's sign, [0/0], [inf/inf], [inf - inf] and [0 * inf] are
    NaN, and NaN propagates. *)
Inductive xnum :=
| Num (q : Q)
| Inf (neg : bool)
| NaN.

Definition Qneg (q : Q) : bool := negb (Qle_bool 0 q).
Definition Qzero (q : Q) : bool := Qeq_bool q 0.

Definition xopp (a : xnum) : xnum :=
  match a with
  | Num q => Num (- q)
  | Inf s => Inf (negb s)
  | NaN => NaN
  end.

Definition xadd (a b : xnum) : xnum :=
  match a, b with
  | NaN, _ | _, NaN => NaN
  | Num p, Num q => Num (p + q)
  | Inf s, Num _ | Num _, Inf s => Inf s
  | Inf s, Inf t => if Bool.eqb s t then Inf s else NaN
  end.

Definition xsub (a b : xnum) : xnum := xadd a (xopp b).

Definition xmul (a b : xnum) : xnum :=
  match a, b with
  | NaN, _ | _, NaN => NaN
  | Num p, Num q => Num (p * q)
  | Inf s, Num q | Num q, Inf s =>
      if Qzero q then NaN else Inf (xorb s (Qneg q))
  | Inf s, Inf t => Inf (xorb s t)
  end.

Definition xdiv (a b : xnum) : xnum :=
  match a, b with
  | NaN, _ | _, NaN => NaN
  | Num p, Num q =>
      if Qzero q then (if Qzero p then NaN else Inf (Qneg p))
      else Num (p / q)
  | Num _, Inf _ => Num 0
  | Inf s, Num q => Inf (xorb s (Qneg q))
  | Inf _, Inf _ => NaN
  end.

Definition xisnan (a : xnum) : bool :=
  match a with NaN => true | _ => false end.

#[global] Instance xnum_ops : FloatOps xnum := {|
  fadd := xadd; fsub := xsub; fmul := xmul; fdiv := xdiv;
  isnan := xisnan; fnan := NaN;
  lit0 := Num 0; lit1 := Num 1; lit100 := Num 100
|}.

(** Equality of values: rationals are compared as fractions. *)
Definition xeq (a b : xnum) : Prop :=
  match a, b with
  | Num p, Num q => (p == q)%Q
  | Inf s, Inf t => s = t
  | NaN, NaN => True
  | _, _ => False
  end.

Definition xfinite (a : xnum) : Prop :=
  match a with Num _ => True | _ => False end.

Definition xnonzero (a : xnum) : Prop :=
  match a with Num q => ~ (q == 0)%Q | _ => False end.

(** ** binary64 *)
#[global] Instance binary64_ops : FloatOps float := {|
  fadd := PrimFloat.add; fsub := PrimFloat.sub;
  fmul := PrimFloat.mul; fdiv := PrimFloat.div;
  isnan := PrimFloat.is_nan; fnan := PrimFloat.nan;
  lit0 := 0%float; lit1 := 1%float; lit100 := 100%float
|}.

(** [|a - b| < 1e-9], the tolerance of the specification. *)
Definition close64 (a b : float) : bool :=
  PrimFloat.ltb (PrimFloat.abs (PrimFloat.sub a b)) 0x1.12e0be826d695p-30%float.

(** A price that is a number above zero: [0 < x < inf]. *)
Definition positive_finite (x : float) : bool :=
  PrimFloat.ltb 0 x && PrimFloat.ltb x infinity.

(** ** What the properties need of the arithmetic *)

(** The facts about NaN and about the literals 0 and 1 that the
    properties of the calculator rest on.  They hold in exact
    arithmetic and in binary64. *)
Class FloatLaws (F : Type) `{FloatOps F} : Prop := {
  isnan_fnan : isnan fnan = true;
  isnan_lit0 : isnan lit0 = false;
  fadd_lit1_lit0 : fadd lit1 lit0 = lit1;
  fsub_lit1_lit1 : fsub lit1 lit1 = lit0;
  fmul_lit1_lit1 : fmul lit1 lit1 = lit1;
  isnan_fadd_lit1 a : isnan (fadd lit1 a) = isnan a;
  isnan_fsub_lit1 a : isnan (fsub a lit1) = isnan a;
  isnan_fmul_l a b : isnan a = true -> isnan (fmul a b) = true;
  isnan_fdiv_r a b : isnan b = true -> isnan (fdiv a b) = true
}.

(* ================================================================== *)
(** * pandas: series and frames as values *)
(* ================================================================== *)

(** Index labels are trading days, counted from some epoch. *)
Definition Timestamp := Z.

(** How [Series.pct_change] treats missing values when called without
    arguments depends on the pandas release: it pads them forward with
    the last valid observation (the long-standing default
    [fill_method='pad']) or leaves them alone (releases in which that
    default is gone). *)
Inductive FillMethod := Pad | NoFill.

Section Series.
Context {F : Type} `{FloatOps F}.

(** [Series.shift(1)]: every value moves one row down and the first
    row becomes NaN. *)
Definition shift (xs : list F) : list F := take (length xs) (fnan :: xs).

(** [Series.ffill()]: a missing value takes the last valid value above
    it; leading missing values stay. *)
Fixpoint ffill_from (prev : F) (xs : list F) : list F :=
  match xs with
  | [] => []
  | x :: t => let d := if isnan x then prev else x in d :: ffill_from d t
  end.
Definition ffill (xs : list F) : list F := ffill_from fnan xs.

(** [Series.pct_change()]: [data / data.shift(1) - 1]. *)
Definition pct_change (fm : FillMethod) (xs : list F) : list F :=
  let data := match fm with Pad => ffill xs | NoFill => xs end in
  zip_with (fun a b => fsub (fdiv a b) lit1) data (shift data).

(** [Series.fillna(v)] *)
Definition fillna (v : F) (xs : list F) : list F :=
  map (fun x => if isnan x then v else x) xs.

(** [c + series], [series - c], [series * c] *)
Definition radd (c : F) (xs : list F) : list F := map (fun x => fadd c x) xs.
Definition sub_scalar (xs : list F) (c : F) : list F := map (fun x => fsub x c) xs.
Definition mul_scalar (xs : list F) (c : F) : list F := map (fun x => fmul x c) xs.

(** [numpy.cumprod]: the first element as it is, then the running
    product. *)
Fixpoint np_cumprod_from (acc : F) (xs : list F) : list F :=
  match xs with
  | [] => []
  | x :: t => let a := fmul acc x in a :: np_cumprod_from a t
  end.
Definition np_cumprod (xs : list F) : list F :=
  match xs with
  | [] => []
  | x :: t => x :: np_cumprod_from x t
  end.

(** [Series.cumprod()] skips missing values: they count as 1 in the
    running product and are put back as NaN in the result. *)
Definition cumprod (xs : list F) : list F :=
  let mask := map isnan xs in
  let vals := zip_with (fun (m : bool) x => if m then lit1 else x) mask xs in
  zip_with (fun (m : bool) r => if m then fnan else r) mask (np_cumprod vals).

(** Positional access [series.iloc[i]]; a negative position counts
    from the end. [None] is pandas' IndexError. *)
Definition iloc (xs : list F) (i : Z) : option F :=
  if (0 <=? i)%Z then xs !! Z.to_nat i
  else if (0 <=? Z.of_nat (length xs) + i)%Z
       then xs !! Z.to_nat (Z.of_nat (length xs) + i)
       else None.

(** ** Frames *)

(** A frame: the index and the columns, in column order. *)
Record Frame := mkFrame {
  index : list Timestamp;
  columns : list (string * list F)
}.

(** [frame[name]] *)
Fixpoint lookup_column (name : string) (cols : list (string * list F))
  : option (list F) :=
  match cols with
  | [] => None
  | (n, v) :: t => if String.eqb n name then Some v else lookup_column name t
  end.

(** [frame[name] = values]: an existing column is replaced in place,
    a new one is appended. *)
Fixpoint assign_column (name : string) (v : list F)
         (cols : list (string * list F)) : list (string * list F) :=
  match cols with
  | [] => [(name, v)]
  | (n, w) :: t =>
      if String.eqb n name then (n, v) :: t
      else (n, w) :: assign_column name v t
  end.

Definition frame_setitem (name : string) (v : list F) (f : Frame) : Frame :=
  {| index := index f; columns := assign_column name v (columns f) |}.

(** [frame.empty]: some axis has length 0. *)
Definition frame_empty (f : Frame) : bool :=
  match index f, columns f with
  | [], _ | _, [] => true
  | _, _ => false
  end.

(** [frame[[n1, n2, ...]]]: the named columns, in the order asked. *)
Fixpoint select_columns (names : list string) (cols : list (string * list F))
  : string + list (string * list F) :=
  match names with
  | [] => inr []
  | n :: t =>
      match lookup_column n cols with
      | None => inl n
      | Some v =>
          match select_columns t cols with
          | inl k => inl k
          | inr r => inr ((n, v) :: r)
          end
      end
  end.

(** [frame.rename(columns={old: new})] *)
Definition rename_columns (old new : string) (cols : list (string * list F))
  : list (string * list F) :=
  map (fun c => if String.eqb (fst c) old then (new, snd c) else c) cols.

(** [frame.dropna()]: a row stays when no column is missing there. *)
Fixpoint keep {A} (mask : list bool) (l : list A) : list A :=
  match mask, l with
  | b :: m, x :: t => if b then x :: keep m t else keep m t
  | _, _ => []
  end.

Definition notna_mask (n : nat) (cols : list (string * list F)) : list bool :=
  foldr (fun c m => zip_with andb (map (fun x => negb (isnan x)) (snd c)) m)
        (replicate n true) cols.

Definition frame_dropna (f : Frame) : Frame :=
  let mask := notna_mask (length (index f)) (columns f) in
  {| index := keep mask (index f);
     columns := map (fun c => (fst c, keep mask (snd c))) (columns f) |}.

End Series.

Arguments Frame F : clear implicits.

(* ================================================================== *)
(** * Exceptions, the heap and the monad of the script *)
(* ================================================================== *)

(** The exceptions a run can end with. The specification calls the
    [RuntimeError] of the fetcher NoDataError and the [ValueError] of
    the date parser FormatError; a failure inside the provider's own
    call is kept apart as [ProviderError]. *)
Inductive Exn :=
| RuntimeError (msg : string)
| ValueError (msg : string)
| KeyError (key : string)
| IndexError
| ProviderError (payload : string)
| InvalidRef.   (* a reference to no object; Python has no such value *)

Definition no_data_message : string :=
  "No price data was retrieved. Check the ticker symbol and network connectivity.".

Definition NoDataError : Exn := RuntimeError no_data_message.

Inductive Outcome (A : Type) :=
| Ok (a : A)
| Raise (e : Exn).
Arguments Ok {A} a.
Arguments Raise {A} e.

Definition loc := nat.

Section Runtime.
Context {F : Type}.

(** One panel of the chart. *)
Record Panel := mkPanel {
  panel_x : list Timestamp;
  panel_y : list F;
  panel_label : string;
  panel_color : string;
  panel_ylabel : string;
  panel_xlabel : option string;
  panel_title : string;
  panel_grid : bool;
  panel_legend : bool
}.

Record Figure := mkFigure {
  price_ax : Panel;
  cum_ax : Panel;
  sharex : bool
}.

(** What a run lets the user see. *)
Inductive Event :=
| Printed (line : string)
| Shown (fig : Figure).

Record State := mkState {
  heap : gmap loc (Frame F);
  trace : list Event
}.

Definition M (A : Type) : Type := State -> Outcome A * State.

Definition ret {A} (a : A) : M A := fun s => (Ok a, s).

Definition bind {A B} (m : M A) (k : A -> M B) : M B :=
  fun s =>
    match m s with
    | (Ok a, s') => k a s'
    | (Raise e, s') => (Raise e, s')
    end.

Definition raise {A} (e : Exn) : M A := fun s => (Raise e, s).

(** A new object. *)
Definition alloc (f : Frame F) : M loc :=
  fun s =>
    let l := fresh (dom (heap s)) in
    (Ok l, {| heap := <[l := f]> (heap s); trace := trace s |}).

Definition load (l : loc) : M (Frame F) :=
  fun s =>
    match heap s !! l with
    | Some f => (Ok f, s)
    | None => (Raise InvalidRef, s)
    end.

(** Mutation in place of the object at [l]. *)
Definition store (l : loc) (f : Frame F) : M unit :=
  fun s =>
    match heap s !! l with
    | Some _ => (Ok tt, {| heap := <[l := f]> (heap s); trace := trace s |})
    | None => (Raise InvalidRef, s)
    end.

Definition emit (e : Event) : M unit :=
  fun s => (Ok tt, {| heap := heap s; trace := trace s ++ [e] |}).

Definition print (line : string) : M unit := emit (Printed line).

Definition of_option {A} (o : option A) (e : Exn) : M A :=
  match o with
  | Some a => ret a
  | None => raise e
  end.

End Runtime.

Arguments Panel F : clear implicits.
Arguments Figure F : clear implicits.
Arguments Event F : clear implicits.
Arguments State F : clear implicits.
Arguments M F A : clear implicits.

#[global] Instance M_ret {F} : MRet (M F) := fun A a => ret a.
#[global] Instance M_bind {F} : MBind (M F) := fun A B k m => bind m k.

(** ** Frame objects *)
Section FrameObjects.
Context {F : Type} `{FloatOps F}.

(** [frame.copy()] *)
Definition df_copy (l : loc) : M F loc :=
  f ← load l; alloc f.

(** [frame[name]] *)
Definition df_getitem (l : loc) (name : string) : M F (list F) :=
  f ← load l; of_option (lookup_column name (columns f)) (KeyError name).

(** [frame[name] = values] changes the object itself. *)
Definition df_setitem (l : loc) (name : string) (v : list F) : M F unit :=
  f ← load l;
  if Nat.eqb (length v) (length (index f))
  then store l (frame_setitem name v f)
  else raise (ValueError "Length of values does not match length of index").

(** [frame.index] *)
Definition df_index (l : loc) : M F (list Timestamp) :=
  f ← load l; mret (index f).

(** [frame.empty] *)
Definition df_empty (l : loc) : M F bool :=
  f ← load l; mret (frame_empty f).

(** [frame[[names]]] is a new object. When a name is missing pandas
    raises a KeyError whose argument is a message listing the names; the
    model carries the first missing name instead. *)
Definition df_select (l : loc) (names : list string) : M F loc :=
  f ← load l;
  match select_columns names (columns f) with
  | inl k => raise (KeyError k)
  | inr cols => alloc {| index := index f; columns := cols |}
  end.

(** [frame.rename(columns={old: new})] is a new object. *)
Definition df_rename (l : loc) (old new : string) : M F loc :=
  f ← load l;
  alloc {| index := index f; columns := rename_columns old new (columns f) |}.

(** [frame.dropna()] is a new object. *)
Definition df_dropna (l : loc) : M F loc :=
  f ← load l; alloc (frame_dropna f).

(** [series.iloc[i]] *)
Definition series_iloc (xs : list F) (i : Z) : M F F :=
  of_option (iloc xs i) IndexError.

End FrameObjects.

(* ================================================================== *)
(** * The script *)
(* ================================================================== *)

(** [AnalysisConfig], a frozen dataclass of three strings. *)
Record AnalysisConfig := mkAnalysisConfig {
  ticker : string;
  start_date : string;
  end_date : string
}.

Definition default_ticker : string := "^IXIC".
Definition default_start_date : string := "2005-01-01".
Definition default_end_date : string := "2025-10-28".

(** The generated constructor: every field is a keyword argument with a
    default, and nothing is checked. *)
Definition new_AnalysisConfig (t s e : option string) : AnalysisConfig :=
  {| ticker := default default_ticker t;
     start_date := default default_start_date s;
     end_date := default default_end_date e |}.

(** The command line: the flags that were given. *)
Record Argv := mkArgv {
  arg_ticker : option string;
  arg_start_date : option string;
  arg_end_date : option string
}.

(** The library functions and the provider the script calls. *)
Class Platform (F : Type) := {
  DateTime : Type;
  (** [datetime.fromisoformat]; [None] is its ValueError. *)
  fromisoformat : string -> option DateTime;
  (** [format(d, "%Y-%m-%d")] *)
  format_ymd : DateTime -> string;
  (** [format(x, ",.2f")] and [format(x, ".2%")] *)
  format_money : F -> string;
  format_percent : F -> string;
  (** [yf.download(ticker, start=..., end=..., auto_adjust=False,
      progress=False)]: a table, or a failure of the provider. *)
  download : string -> string -> string -> string + Frame F
}.

Section Script.
Context {F : Type} `{FloatOps F} `{Platform F}.

(** What [pct_change()] does with missing values in the installed
    pandas. *)
Variable fill_method : FillMethod.

(** The exception of [datetime.fromisoformat]; the message is the
    library's and quotes the string. *)
Definition invalid_isoformat (s : string) : Exn :=
  ValueError ("Invalid isoformat string: '" ++ s ++ "'").

(** [AnalysisConfig.date_range]; the tuple is built left to right. *)
Definition date_range (self : AnalysisConfig) : Outcome (DateTime * DateTime) :=
  match fromisoformat (start_date self) with
  | None => Raise (invalid_isoformat (start_date self))
  | Some s =>
      match fromisoformat (end_date self) with
      | None => Raise (invalid_isoformat (end_date self))
      | Some e => Ok (s, e)
      end
  end.

Definition lift {A} (o : Outcome A) : M F A :=
  match o with
  | Ok a => mret a
  | Raise e => raise e
  end.

Definition yf_download (t s e : string) : M F loc :=
  match download t s e with
  | inl payload => raise (ProviderError payload)
  | inr table => alloc table
  end.

Definition fetch_price_history (config : AnalysisConfig) : M F loc :=
  price_history ← yf_download (ticker config) (start_date config) (end_date config);
  empty ← df_empty price_history;
  if (empty : bool) then raise NoDataError
  else
    selected ← df_select price_history ["Adj Close"];
    df_rename selected "Adj Close" "adj_close".

Definition compute_returns (price_history : loc) : M F loc :=
  returns ← df_copy price_history;
  adj_close ← df_getitem returns "adj_close";
  df_setitem returns "daily_return"
             (fillna lit0 (pct_change fill_method adj_close));;
  daily_return ← df_getitem returns "daily_return";
  let growth_factors := radd lit1 daily_return in
  df_setitem returns "cumulative_return"
             (sub_scalar (cumprod growth_factors) lit1);;
  df_dropna returns.

Definition summary_header (config : AnalysisConfig) (s e : DateTime) : string :=
  "Summary for " ++ ticker config ++ " from " ++ format_ymd s
    ++ " to " ++ format_ymd e ++ ":".

Definition summarize_returns (returns : loc) (config : AnalysisConfig) : M F unit :=
  '(start, end_) ← lift (date_range config);
  adj_close ← df_getitem returns "adj_close";
  first_price ← series_iloc adj_close 0;
  adj_close' ← df_getitem returns "adj_close";
  last_price ← series_iloc adj_close' (-1);
  cumulative ← df_getitem returns "cumulative_return";
  total_return ← series_iloc cumulative (-1);
  print (summary_header config start end_);;
  print ("  Starting adjusted close: $" ++ format_money first_price);;
  print ("  Ending adjusted close:   $" ++ format_money last_price);;
  print ("  Total cumulative return: " ++ format_percent total_return).

Definition plot_returns (returns : loc) (config : AnalysisConfig) : M F unit :=
  idx ← df_index returns;
  adj_close ← df_getitem returns "adj_close";
  idx' ← df_index returns;
  cumulative ← df_getitem returns "cumulative_return";
  emit (Shown
    {| price_ax :=
         {| panel_x := idx; panel_y := adj_close;
            panel_label := "Adjusted Close"; panel_color := "#1f77b4";
            panel_ylabel := "Price (USD)"; panel_xlabel := None;
            panel_title := ticker config ++ " Adjusted Close Price";
            panel_grid := true; panel_legend := true |};
       cum_ax :=
         {| panel_x := idx'; panel_y := mul_scalar cumulative lit100;
            panel_label := "Cumulative Return"; panel_color := "#ff7f0e";
            panel_ylabel := "Cumulative Return (%)";
            panel_xlabel := Some "Date";
            panel_title := "Cumulative Return Since Start Date";
            panel_grid := true; panel_legend := true |};
       sharex := true |}).

(** [argparse] fills in the defaults of the flags not given. *)
Definition parse_args (argv : Argv) : AnalysisConfig :=
  new_AnalysisConfig
    (Some (default "^IXIC" (arg_ticker argv)))
    (Some (default "2005-01-01" (arg_start_date argv)))
    (Some (default "2025-10-28" (arg_end_date argv))).

Definition main (argv : Argv) : M F unit :=
  let config := parse_args argv in
  price_history ← fetch_price_history config;
  returns ← compute_returns price_history;
  summarize_returns returns config;;
  plot_returns returns config.

End Script.

(* ================================================================== *)
(** * Price series and return series *)
(* ================================================================== *)

Section Points.
Context {F : Type} `{FloatOps F}.

Record PricePoint := mkPricePoint {
  pp_date : Timestamp;
  pp_adjusted_close : F
}.

Record ReturnPoint := mkReturnPoint {
  rp_date : Timestamp;
  rp_adjusted_close : F;
  rp_daily_return : F;
  rp_cumulative_return : F
}.

(** The frame the fetcher hands over: the dates as index and the one
    column [adj_close]. *)
Definition price_frame (ps : list PricePoint) : Frame F :=
  {| index := map pp_date ps;
     columns := [("adj_close", map pp_adjusted_close ps)] |}.

Fixpoint zip_rows (ds : list Timestamp) (a d c : list F) : list ReturnPoint :=
  match ds, a, d, c with
  | t :: ds', x :: a', y :: d', z :: c' =>
      mkReturnPoint t x y z :: zip_rows ds' a' d' c'
  | _, _, _, _ => []
  end.

(** The rows of a frame that has the three columns of a return
    series. *)
Definition return_points (f : Frame F) : option (list ReturnPoint) :=
  a ← lookup_column "adj_close" (columns f);
  d ← lookup_column "daily_return" (columns f);
  c ← lookup_column "cumulative_return" (columns f);
  Some (zip_rows (index f) a d c).

(** A heap holding one frame, and nothing printed or shown yet. *)
Definition fresh_state (f : Frame F) : State F :=
  {| heap := {[ 0%nat := f ]}; trace := [] |}.

(** [compute_returns] applied to a price series, and the rows of the
    frame it returns. *)
Definition compute (fm : FillMethod) (ps : list PricePoint)
  : option (list ReturnPoint) :=
  match compute_returns fm 0%nat (fresh_state (price_frame ps)) with
  | (Ok l, s) => f ← heap s !! l; return_points f
  | (Raise _, _) => None
  end.

(** The running product of growth factors, from scratch. *)
Definition growth (r : ReturnPoint) : F := fadd lit1 (rp_daily_return r).
Definition product (xs : list F) : F := foldl fmul lit1 xs.

End Points.

Arguments PricePoint F : clear implicits.
Arguments ReturnPoint F : clear implicits.

Definition qprice (d : Z) (p : Z) : PricePoint xnum := mkPricePoint d (Num (inject_Z p)).
Definition fprice (d : Z) (p : float) : PricePoint float := mkPricePoint d p.

(* ================================================================== *)
(** * Vocabulary of the properties *)
(* ================================================================== *)

Section Vocabulary.
Context {F : Type} `{FloatOps F} `{Platform F}.

(** The two derived columns, as the body of [compute_returns] writes
    them. *)
Definition daily_column (fm : FillMethod) (xs : list F) : list F :=
  fillna lit0 (pct_change fm xs).

Definition cumulative_column (fm : FillMethod) (xs : list F) : list F :=
  sub_scalar (cumprod (radd lit1 (daily_column fm xs))) lit1.

(** The frame just before [dropna]. *)
Definition full_frame (fm : FillMethod) (f : Frame F) (xs : list F) : Frame F :=
  {| index := index f;
     columns := [("adj_close", xs);
                 ("daily_return", daily_column fm xs);
                 ("cumulative_return", cumulative_column fm xs)] |}.

(** Every object of [s] is still there, unchanged, in [s']. *)
Definition untouched (s s' : State F) : Prop :=
  forall l f, heap s !! l = Some f -> heap s' !! l = Some f.

(** The four lines of the summary. *)
Definition summary_lines (config : AnalysisConfig) (s e : DateTime)
           (first_price last_price total_return : F) : list (Event F) :=
  [Printed (summary_header config s e);
   Printed ("  Starting adjusted close: $" ++ format_money first_price);
   Printed ("  Ending adjusted close:   $" ++ format_money last_price);
   Printed ("  Total cumulative return: " ++ format_percent total_return)].

(** The frame [fetch_price_history] returns for a provider table. *)
Definition fetched_frame (table : Frame F) (cols : list (string * list F)) : Frame F :=
  {| index := index table;
     columns := rename_columns "Adj Close" "adj_close" cols |}.

(** The four ways a run of [fetch_price_history] can go. *)
Inductive fetch_result (config : AnalysisConfig) (s : State F)
  : Outcome loc * State F -> Prop :=
  | fetch_provider_failure payload :
    download (ticker config) (start_date config) (end_date config) = inl payload ->
    fetch_result config s (Raise (ProviderError payload), s)
  | fetch_no_data table :
    download (ticker config) (start_date config) (end_date config) = inr table ->
    frame_empty table = true ->
    fetch_result config s
      (Raise NoDataError,
       {| heap := <[fresh (dom (heap s)) := table]> (heap s); trace := trace s |})
  | fetch_no_column table k :
    download (ticker config) (start_date config) (end_date config) = inr table ->
    frame_empty table = false ->
    select_columns ["Adj Close"] (columns table) = inl k ->
    fetch_result config s
      (Raise (KeyError k),
       {| heap := <[fresh (dom (heap s)) := table]> (heap s); trace := trace s |})
  | fetch_table table cols :
    download (ticker config) (start_date config) (end_date config) = inr table ->
    frame_empty table = false ->
    select_columns ["Adj Close"] (columns table) = inr cols ->
    let h0 := <[fresh (dom (heap s)) := table]> (heap s) in
    let h1 := <[fresh (dom h0) := {| index := index table; columns := cols |}]> h0 in
    fetch_result config s
      (Ok (fresh (dom h1)),
       {| heap := <[fresh (dom h1) := fetched_frame table cols]> h1;
          trace := trace s |}).

(** The columns of [compute_returns] are built one after the other;
    read row by row, the same computation carries the previous value
    of the (padded) price column and the running product. *)
Fixpoint rows (fm : FillMethod) (prev acc : F) (first : bool)
         (ps : list (PricePoint F)) : list (ReturnPoint F) :=
  match ps with
  | [] => []
  | p :: t =>
      let x := pp_adjusted_close p in
      let d := match fm with
               | Pad => if isnan x then prev else x
               | NoFill => x
               end in
      let pct := fsub (fdiv d prev) lit1 in
      let daily := if isnan pct then lit0 else pct in
      let g := fadd lit1 daily in
      let v := if isnan g then lit1 else g in
      let a := if first then v else fmul acc v in
      let c := fsub (if isnan g then fnan else a) lit1 in
      let rest := rows fm d a false t in
      if negb (isnan x) && (negb (isnan daily) && (negb (isnan c) && true))
      then mkReturnPoint (pp_date p) x daily c :: rest
      else rest
  end.

(** The frame of [compute_returns] just before [dropna], as rows. *)
Definition full_table (fm : FillMethod) (ps : list (PricePoint F))
  : list (ReturnPoint F) :=
  let xs := map pp_adjusted_close ps in
  zip_rows (map pp_date ps) xs (daily_column fm xs) (cumulative_column fm xs).

(** A row [dropna] keeps. *)
Definition complete_row (r : ReturnPoint F) : bool :=
  negb (isnan (rp_adjusted_close r))
  && (negb (isnan (rp_daily_return r))
      && (negb (isnan (rp_cumulative_return r)) && true)).

(** The rows before [dropna], computed like [rows]. *)
Fixpoint all_rows (fm : FillMethod) (prev acc : F) (first : bool)
         (ps : list (PricePoint F)) : list (ReturnPoint F) :=
  match ps with
  | [] => []
  | p :: t =>
      let x := pp_adjusted_close p in
      let d := match fm with
               | Pad => if isnan x then prev else x
               | NoFill => x
               end in
      let pct := fsub (fdiv d prev) lit1 in
      let daily := if isnan pct then lit0 else pct in
      let g := fadd lit1 daily in
      let v := if isnan g then lit1 else g in
      let a := if first then v else fmul acc v in
      let c := fsub (if isnan g then fnan else a) lit1 in
      mkReturnPoint (pp_date p) x daily c :: all_rows fm d a false t
  end.

(** A series in which no adjusted close is missing. *)
Definition gap_free (ps : list (PricePoint F)) : Prop :=
  Forall (fun p => isnan (pp_adjusted_close p) = false) ps.

(** The columns, started from a previous value and a running
    product. *)
Definition data_from (fm : FillMethod) (prev : F) (xs : list F) : list F :=
  match fm with Pad => ffill_from prev xs | NoFill => xs end.

Definition pct_from (prev : F) (data : list F) : list F :=
  zip_with (fun a b => fsub (fdiv a b) lit1) data (take (length data) (prev :: data)).

Definition cumprod_from (first : bool) (acc : F) (xs : list F) : list F :=
  let mask := map isnan xs in
  let vals := zip_with (fun (m : bool) x => if m then lit1 else x) mask xs in
  zip_with (fun (m : bool) r => if m then fnan else r) mask
           (if first then np_cumprod vals else np_cumprod_from acc vals).

Definition table_rows (ds : list Timestamp) (xs daily cum : list F)
  : list (ReturnPoint F) :=
  let mask := notna_mask (length ds)
                [("adj_close", xs); ("daily_return", daily);
                 ("cumulative_return", cum)] in
  zip_rows (keep mask ds) (keep mask xs) (keep mask daily) (keep mask cum).

Definition dated_price (p : PricePoint F) : Timestamp * F :=
  (pp_date p, pp_adjusted_close p).
Definition dated_close (r : ReturnPoint F) : Timestamp * F :=
  (rp_date r, rp_adjusted_close r).

(** The frame of a return series. *)
Definition return_frame (rs : list (ReturnPoint F)) : Frame F :=
  {| index := map rp_date rs;
     columns := [("adj_close", map rp_adjusted_close rs);
                 ("daily_return", map rp_daily_return rs);
                 ("cumulative_return", map rp_cumulative_return rs)] |}.

End Vocabulary.

(** The padded price and the daily return of a row, given the padded
    price of the row above. *)
Definition xdata (fm : FillMethod) (prev x : xnum) : xnum :=
  match fm with
  | Pad => if xisnan x then prev else x
  | NoFill => x
  end.

Definition xdaily (fm : FillMethod) (prev x : xnum) : xnum :=
  let pct := xsub (xdiv (xdata fm prev x) prev) (Num 1) in
  if xisnan pct then Num 0 else pct.

(** The daily returns the specification asks for: 0 on the first row,
    then the ratio of each price to the one before, minus one. *)
Fixpoint ratios (prev : xnum) (xs : list xnum) : list xnum :=
  match xs with
  | [] => []
  | x :: t => xsub (xdiv x prev) (Num 1) :: ratios x t
  end.

Definition expected_daily (xs : list xnum) : list xnum :=
  match xs with
  | [] => []
  | x :: t => Num 0 :: ratios x t
  end.

(** A price that is a number and not zero. *)
Definition nonzero_price (p : PricePoint xnum) : Prop :=
  xnonzero (pp_adjusted_close p).

(** The series 100, 110, 99 on three consecutive days. *)
Definition scenario_exact : list (PricePoint xnum) :=
  [qprice 1 100; qprice 2 110; qprice 3 99].
Definition scenario_binary64 : list (PricePoint float) :=
  [fprice 1 100; fprice 2 110; fprice 3 99].

(** Prices whose running product passes [2^53], where binary64 has
    even numbers only: 1, 3 and [2^53 + 2]. *)
Definition rounding_binary64 : list (PricePoint float) :=
  [fprice 1 1; fprice 2 3; fprice 3 0x1.0000000000001p53]%float.

(** Positive prices whose ratio overflows: [2^-600], [2^600] and
    [2^-600] again. *)
Definition overflow_binary64 : list (PricePoint float) :=
  [fprice 1 0x1p-600; fprice 2 0x1p600; fprice 3 0x1p-600]%float.

(** The identity of the specification: at every index of the result,
    one plus the cumulative return is the product of the growth factors
    up to there, for a given reading [same] of the equality. *)
Definition product_identity (F : Type) `{FloatOps F} (same : F -> F -> Prop) : Prop :=
  forall (fm : FillMethod) (ps : list (PricePoint F)),
    exists rs,
      compute fm ps = Some rs /\
      forall i r,
        rs !! i = Some r ->
        same (fadd lit1 (rp_cumulative_return r))
             (product (map growth (take (S i) rs))).

(** The daily returns as the specification words them: on positive
    prices the result starts at 0 and has, at every index after the
    first of the price series, the ratio of the price to the one before,
    less one. *)
Definition daily_returns_at_every_index : Prop :=
  forall (fm : FillMethod) (ps : list (PricePoint float)),
    ps <> [] ->
    Forall (fun p => positive_finite (pp_adjusted_close p) = true) ps ->
    exists rs,
      compute fm ps = Some rs /\
      (exists r0, rs !! 0%nat = Some r0 /\ rp_daily_return r0 = lit0) /\
      (forall i p q,
          ps !! i = Some p -> ps !! S i = Some q ->
          exists r,
            rs !! S i = Some r /\
            rp_daily_return r
            = fsub (fdiv (pp_adjusted_close q) (pp_adjusted_close p)) lit1).

(** The claim on dates as the specification words it: when no adjusted
    close is missing, the dates of the result are the dates of the
    input. *)
Definition dates_kept_when_nothing_missing (F : Type) `{FloatOps F} : Prop :=
  forall (fm : FillMethod) (ps : list (PricePoint F)),
    Forall (fun p => isnan (pp_adjusted_close p) = false) ps ->
    exists rs, compute fm ps = Some rs /\ map rp_date rs = map pp_date ps.

(** A price of zero between two positive prices: the growth factors are
    1, 0 and infinity, their running product ends in [0 * inf], which is
    NaN, and [dropna] removes the third row. *)
Definition zero_price_exact : list (PricePoint xnum) :=
  [qprice 1 100; qprice 2 0; qprice 3 50].
Definition zero_price_binary64 : list (PricePoint float) :=
  [fprice 1 100; fprice 2 0; fprice 3 50].

(** A stand-in for the libraries: dates are kept as the text
    [YYYY-MM-DD], numbers are printed as fractions, and the provider
    knows one ticker and one empty range. *)
Definition sample_fromisoformat (s : string) : option string :=
  if String.eqb (String.substring 4 1 s) "-"
     && String.eqb (String.substring 7 1 s) "-"
     && Nat.eqb (String.length s) 10
  then Some s else None.

Definition show_xnum (a : xnum) : string :=
  match a with
  | Num q => pretty (Qnum (Qred q)) ++ "/" ++ pretty (Z.pos (Qden (Qred q)))
  | Inf false => "inf"
  | Inf true => "-inf"
  | NaN => "nan"
  end.

Definition sample_table : Frame xnum :=
  {| index := [1; 2; 3]%Z;
     columns := [("Adj Close", [Num 100; Num 110; Num 99]);
                 ("Close", [Num 101; Num 111; Num 100]);
                 ("Volume", [Num 5000; Num 7000; Num 6000])] |}.

Definition empty_table : Frame xnum :=
  {| index := [];
     columns := [("Adj Close", []); ("Close", []); ("Volume", [])] |}.

Definition sample_download (t s e : string) : string + Frame xnum :=
  if String.eqb t "^IXIC"
  then (if String.eqb s "2005-01-01" then inr sample_table else inr empty_table)
  else inl "unknown ticker".

#[global] Instance sample_platform : Platform xnum := {|
  DateTime := string;
  fromisoformat := sample_fromisoformat;
  format_ymd := fun d => d;
  format_money := show_xnum;
  format_percent := show_xnum;
  download := sample_download
  |}.

Definition no_objects : State xnum := {| heap := ∅; trace := [] |}.

Definition default_argv : Argv := mkArgv None None None.
Definition empty_range_argv : Argv := mkArgv None (Some "2025-10-27") None.

Definition sample_returns : list (ReturnPoint xnum) :=
  [mkReturnPoint 1%Z (Num 100) (Num 0) (Num 0);
   mkReturnPoint 2%Z (Num 110) (Num (1 # 10)) (Num (1 # 10));
   mkReturnPoint 3%Z (Num 99) (Num (-1 # 10)) (Num (-1 # 100))].

(** A provider table without the adjusted close, and a platform whose
    provider returns it. *)
Definition bare_table : Frame xnum :=
  {| index := [1; 2]%Z;
     columns := [("Close", [Num 101; Num 111]);
                 ("Volume", [Num 5000; Num 7000])] |}.

Definition bare_platform : Platform xnum := {|
  DateTime := string;
  fromisoformat := sample_fromisoformat;
  format_ymd := fun d => d;
  format_money := show_xnum;
  format_percent := show_xnum;
  download := fun _ _ _ => inr bare_table
|}.

(** A series with a gap on the second day. *)
Definition gap_series : list (PricePoint xnum) :=
  [qprice 1 100; mkPricePoint 2%Z NaN; qprice 3 121].

(** A command line whose end date is no date. *)
Definition bad_end_argv : Argv := mkArgv None None (Some "tomorrow").

(** The figure [plot_returns] shows for an index and the two columns
    it reads. *)
Definition chart {F : Type} `{FloatOps F} (config : AnalysisConfig)
           (idx : list Timestamp) (adj_close cumulative : list F) : Figure F :=
  {| price_ax :=
       {| panel_x := idx; panel_y := adj_close;
          panel_label := "Adjusted Close"; panel_color := "#1f77b4";
          panel_ylabel := "Price (USD)"; panel_xlabel := None;
          panel_title := ticker config ++ " Adjusted Close Price";
          panel_grid := true; panel_legend := true |};
     cum_ax :=
       {| panel_x := idx; panel_y := mul_scalar cumulative lit100;
          panel_label := "Cumulative Return"; panel_color := "#ff7f0e";
          panel_ylabel := "Cumulative Return (%)";
          panel_xlabel := Some "Date";
          panel_title := "Cumulative Return Since Start Date";
          panel_grid := true; panel_legend := true |};
     sharex := true |}.

(** A table whose adjusted closes are all missing. *)
Definition missing_table : Frame xnum :=
  {| index := [1; 2]%Z;
     columns := [("Adj Close", [NaN; NaN]); ("Volume", [Num 0; Num 0])] |}.

Definition missing_platform : Platform xnum := {|
  DateTime := string;
  fromisoformat := sample_fromisoformat;
  format_ymd := fun d => d;
  format_money := show_xnum;
  format_percent := show_xnum;
  download := fun _ _ _ => inr missing_table
|}.

(** ** ISO 8601 dates

    The specification speaks of valid ISO 8601 dates; the script asks
    [datetime.fromisoformat]. *)

Definition digit (c : Ascii.ascii) : option N :=
  let n := Ascii.N_of_ascii c in
  if (48 <=? n)%N && (n <=? 57)%N then Some (n - 48)%N else None.

Fixpoint number_from (acc : N) (cs : list Ascii.ascii) : option N :=
  match cs with
  | [] => Some acc
  | c :: t =>
      match digit c with
      | Some d => number_from (10 * acc + d)%N t
      | None => None
      end
  end.

(** The number written by the [len] decimal digits of [s] from position
    [start] on. *)
Definition field (s : string) (start len : nat) : option N :=
  let f := String.substring start len s in
  if Nat.eqb (String.length f) len
  then number_from 0%N (String.list_ascii_of_string f)
  else None.

Definition char_at (s : string) (i : nat) (c : string) : bool :=
  String.eqb (String.substring i 1 s) c.

Definition leap_year (y : N) : bool :=
  (y mod 4 =? 0)%N && (negb (y mod 100 =? 0)%N || (y mod 400 =? 0)%N).

Definition days_in_month (y m : N) : N :=
  match m with
  | 2 => if leap_year y then 29 else 28
  | 4 | 6 | 9 | 11 => 30
  | _ => 31
  end%N.

Definition days_in_year (y : N) : N := if leap_year y then 366%N else 365%N.

(** A year has 53 weeks when it starts on a Thursday, or on a Wednesday
    and is a leap year. *)
Definition weeks_in_year (y : N) : N :=
  let p z := ((z + z / 4 - z / 100 + z / 400) mod 7)%N in
  if (p y =? 4)%N || (p (y - 1) =? 3)%N then 53%N else 52%N.

Definition calendar_date (y m d : option N) : bool :=
  match y, m, d with
  | Some y, Some m, Some d =>
      (1 <=? m)%N && (m <=? 12)%N && (1 <=? d)%N && (d <=? days_in_month y m)%N
  | _, _, _ => false
  end.

Definition ordinal_date (y d : option N) : bool :=
  match y, d with
  | Some y, Some d => (1 <=? d)%N && (d <=? days_in_year y)%N
  | _, _ => false
  end.

Definition week_date (y w d : option N) : bool :=
  match y, w, d with
  | Some y, Some w, Some d =>
      (1 <=? w)%N && (w <=? weeks_in_year y)%N && (1 <=? d)%N && (d <=? 7)%N
  | _, _, _ => false
  end.

(** What the specification calls a valid ISO 8601 date: a complete
    calendar date [YYYY-MM-DD] or [YYYYMMDD], an ordinal date [YYYY-DDD]
    or [YYYYDDD], or a week date [YYYY-Www-D] or [YYYYWwwD], each naming
    a day that exists. *)
Definition iso8601_date (s : string) : bool :=
  match String.length s with
  | 10 =>
      (char_at s 4 "-" && char_at s 7 "-"
       && calendar_date (field s 0 4) (field s 5 2) (field s 8 2))
      || (char_at s 4 "-" && char_at s 5 "W" && char_at s 8 "-"
          && week_date (field s 0 4) (field s 6 2) (field s 9 1))
  | 8 =>
      calendar_date (field s 0 4) (field s 4 2) (field s 6 2)
      || (char_at s 4 "-" && ordinal_date (field s 0 4) (field s 5 3))
      || (char_at s 4 "W" && week_date (field s 0 4) (field s 5 2) (field s 7 1))
  | 7 => ordinal_date (field s 0 4) (field s 4 3)
  | _ => false
  end%nat.

(** C7 as the specification words it. *)
Definition date_range_fails_on_invalid_iso8601 {F : Type} `{Platform F} : Prop :=
  forall config : AnalysisConfig,
    (iso8601_date (start_date config) = true ->
     iso8601_date (end_date config) = true ->
     exists s e, date_range config = Ok (s, e))
    /\ ((exists msg, date_range config = Raise (ValueError msg))
        <-> (iso8601_date (start_date config) = false
             \/ iso8601_date (end_date config) = false)).

(** The form the library documents for [datetime.fromisoformat]:
    [YYYY-MM-DD[*HH[:MM[:SS[.fff[fff]]]][+HH:MM[:SS[.ffffff]]]]], where
    [*] is any one character. *)

(** The field is a number below [n]. *)
Definition below (n : N) (o : option N) : bool :=
  match o with
  | Some k => (k <? n)%N
  | None => false
  end.

(** [HH[:MM[:SS[.fff[fff]]]]] *)
Definition clock_time (s : string) : bool :=
  match String.length s with
  | 2 => below 24 (field s 0 2)
  | 5 => char_at s 2 ":" && below 24 (field s 0 2) && below 60 (field s 3 2)
  | 8 => char_at s 2 ":" && char_at s 5 ":" && below 24 (field s 0 2)
         && below 60 (field s 3 2) && below 60 (field s 6 2)
  | 12 => char_at s 2 ":" && char_at s 5 ":" && char_at s 8 "."
          && below 24 (field s 0 2) && below 60 (field s 3 2)
          && below 60 (field s 6 2) && below 1000 (field s 9 3)
  | 15 => char_at s 2 ":" && char_at s 5 ":" && char_at s 8 "."
          && below 24 (field s 0 2) && below 60 (field s 3 2)
          && below 60 (field s 6 2) && below 1000000 (field s 9 6)
  | _ => false
  end%nat.

(** [HH:MM[:SS[.ffffff]]] after the sign: an offset of less than a
    day. *)
Definition zone_offset (s : string) : bool :=
  let seconds h m sec :=
    match h, m, sec with
    | Some h, Some m, Some sec => (h * 3600 + m * 60 + sec <? 86400)%N
    | _, _, _ => false
    end in
  match String.length s with
  | 5 => char_at s 2 ":" && seconds (field s 0 2) (field s 3 2) (Some 0%N)
  | 8 => char_at s 2 ":" && char_at s 5 ":"
         && seconds (field s 0 2) (field s 3 2) (field s 6 2)
  | 15 => char_at s 2 ":" && char_at s 5 ":" && char_at s 8 "."
          && seconds (field s 0 2) (field s 3 2) (field s 6 2)
          && below 1000000 (field s 9 6)
  | _ => false
  end%nat.

(** Where the first sign of a time stands. *)
Fixpoint sign_position (s : string) : option nat :=
  match s with
  | EmptyString => None
  | String c t =>
      if String.eqb (String c EmptyString) "+" || String.eqb (String c EmptyString) "-"
      then Some 0%nat
      else option_map S (sign_position t)
  end.

Definition time_of_day (s : string) : bool :=
  match sign_position s with
  | None => clock_time s
  | Some i =>
      clock_time (String.substring 0 i s)
      && zone_offset (String.substring (S i) (String.length s - S i) s)
  end.

(** A day of the years 1 to 9999, written [YYYY-MM-DD]. *)
Definition python_date (s : string) : bool :=
  Nat.eqb (String.length s) 10
  && char_at s 4 "-" && char_at s 7 "-"
  && negb (below 1 (field s 0 4))
  && calendar_date (field s 0 4) (field s 5 2) (field s 8 2).

(** A parser of the documented form; the date it returns is kept as
    the text. *)
Definition documented_fromisoformat (s : string) : option string :=
  if python_date (String.substring 0 10 s)
     && (Nat.eqb (String.length s) 10
         || time_of_day (String.substring 11 (String.length s - 11) s))
  then Some s else None.

Definition documented_platform : Platform xnum := {|
  DateTime := string;
  fromisoformat := documented_fromisoformat;
  format_ymd := String.substring 0 10;
  format_money := show_xnum;
  format_percent := show_xnum;
  download := sample_download
|}.

(* ================================================================== *)
(** * What [compute_returns] builds *)
(* ================================================================== *)

Section Columns.
Context {F : Type} `{FloatOps F}.

Lemma length_shift (xs : list F) : length (shift xs) = length xs.
Proof. unfold shift. rewrite length_take. simpl. lia. Qed.

Lemma length_ffill_from (prev : F) (xs : list F) :
  length (ffill_from prev xs) = length xs.
Proof. revert prev. induction xs as [|x t IH]; intros; simpl; [done|]. by rewrite IH. Qed.

Lemma length_pct_change fm (xs : list F) : length (pct_change fm xs) = length xs.
Proof.
  unfold pct_change. rewrite length_zip_with, length_shift.
  destruct fm; unfold ffill; rewrite ?length_ffill_from; lia.
Qed.

Lemma length_daily_column fm (xs : list F) : length (daily_column fm xs) = length xs.
Proof. unfold daily_column, fillna. by rewrite length_map, length_pct_change. Qed.

Lemma length_np_cumprod_from (acc : F) (xs : list F) :
  length (np_cumprod_from acc xs) = length xs.
Proof. revert acc. induction xs as [|x t IH]; intros; simpl; [done|]. by rewrite IH. Qed.

Lemma length_np_cumprod (xs : list F) : length (np_cumprod xs) = length xs.
Proof. destruct xs; simpl; [done|]. by rewrite length_np_cumprod_from. Qed.

Lemma length_cumprod (xs : list F) : length (cumprod xs) = length xs.
Proof.
  unfold cumprod.
  rewrite length_zip_with, length_np_cumprod, length_zip_with, length_map. lia.
Qed.

Lemma length_cumulative_column fm (xs : list F) :
  length (cumulative_column fm xs) = length xs.
Proof.
  unfold cumulative_column, sub_scalar, radd.
  by rewrite length_map, length_cumprod, length_map, length_daily_column.
Qed.

(** ** One step of a run *)

Lemma run_bind {A B} (m : M F A) (k : A -> M F B) (s : State F) :
  (m ≫= k) s
  = match m s with
    | (Ok a, s') => k a s'
    | (Raise e, s') => (Raise e, s')
    end.
Proof. reflexivity. Qed.

Lemma run_bind_ok {A B} (m : M F A) (k : A -> M F B) (s s' : State F) (a : A) :
  m s = (Ok a, s') -> (m ≫= k) s = k a s'.
Proof. intros E. rewrite run_bind, E. reflexivity. Qed.

Lemma run_bind_raise {A B} (m : M F A) (k : A -> M F B) (s s' : State F) e :
  m s = (Raise e, s') -> (m ≫= k) s = (Raise e, s').
Proof. intros E. rewrite run_bind, E. reflexivity. Qed.

Lemma run_load (l : loc) (s : State F) (f : Frame F) :
  heap s !! l = Some f -> load l s = (Ok f, s).
Proof. intros E. unfold load. by rewrite E. Qed.

Lemma run_df_copy (l : loc) (s : State F) (f : Frame F) :
  heap s !! l = Some f ->
  df_copy l s
  = (Ok (fresh (dom (heap s))),
     {| heap := <[fresh (dom (heap s)) := f]> (heap s); trace := trace s |}).
Proof. intros E. unfold df_copy. by rewrite (run_bind_ok _ _ _ _ _ (run_load _ _ _ E)). Qed.

Lemma run_df_getitem (l : loc) (name : string) (s : State F) (f : Frame F) v :
  heap s !! l = Some f ->
  lookup_column name (columns f) = Some v ->
  df_getitem l name s = (Ok v, s).
Proof.
  intros E Ec. unfold df_getitem.
  rewrite (run_bind_ok _ _ _ _ _ (run_load _ _ _ E)). by rewrite Ec.
Qed.

Lemma run_df_setitem (l : loc) (name : string) (v : list F) (s : State F) (f : Frame F) :
  heap s !! l = Some f ->
  length v = length (index f) ->
  df_setitem l name v s
  = (Ok tt, {| heap := <[l := frame_setitem name v f]> (heap s); trace := trace s |}).
Proof.
  intros E El. unfold df_setitem.
  rewrite (run_bind_ok _ _ _ _ _ (run_load _ _ _ E)).
  rewrite El, Nat.eqb_refl. unfold store. by rewrite E.
Qed.

Lemma run_df_dropna (l : loc) (s : State F) (f : Frame F) :
  heap s !! l = Some f ->
  df_dropna l s
  = (Ok (fresh (dom (heap s))),
     {| heap := <[fresh (dom (heap s)) := frame_dropna f]> (heap s);
        trace := trace s |}).
Proof. intros E. unfold df_dropna. by rewrite (run_bind_ok _ _ _ _ _ (run_load _ _ _ E)). Qed.

Lemma run_df_index (l : loc) (s : State F) (f : Frame F) :
  heap s !! l = Some f -> df_index l s = (Ok (index f), s).
Proof. intros E. unfold df_index. by rewrite (run_bind_ok _ _ _ _ _ (run_load _ _ _ E)). Qed.

Lemma run_df_empty (l : loc) (s : State F) (f : Frame F) :
  heap s !! l = Some f -> df_empty l s = (Ok (frame_empty f), s).
Proof. intros E. unfold df_empty. by rewrite (run_bind_ok _ _ _ _ _ (run_load _ _ _ E)). Qed.

(** The run of [compute_returns] on a frame whose only column is
    [adj_close]: a copy is allocated and gets the two columns, the
    result of [dropna] is allocated next, and nothing else changes. *)
Lemma compute_returns_run fm (l : loc) (s : State F) (f : Frame F) (xs : list F) :
  heap s !! l = Some f ->
  columns f = [("adj_close", xs)] ->
  length xs = length (index f) ->
  let l1 := fresh (dom (heap s)) in
  let h1 := <[l1 := full_frame fm f xs]> (heap s) in
  let l2 := fresh (dom h1) in
  compute_returns fm l s
  = (Ok l2, {| heap := <[l2 := frame_dropna (full_frame fm f xs)]> h1;
               trace := trace s |}).
Proof.
  intros Hl Hc Hlen l1 h1 l2. unfold compute_returns.
  rewrite (run_bind_ok _ _ _ _ _ (run_df_copy _ _ _ Hl)). fold l1.
  erewrite run_bind_ok; last first.
  { eapply run_df_getitem; [apply lookup_insert_eq | by rewrite Hc]. }
  erewrite run_bind_ok; last first.
  { eapply run_df_setitem; [apply lookup_insert_eq|].
    rewrite <- Hlen. apply length_daily_column. }
  erewrite run_bind_ok; last first.
  { eapply run_df_getitem; [apply lookup_insert_eq | simpl; by rewrite Hc]. }
  erewrite run_bind_ok; last first.
  { eapply run_df_setitem; [apply lookup_insert_eq|]. simpl.
    rewrite <- Hlen. apply length_cumulative_column. }
  erewrite run_df_dropna; last by apply lookup_insert_eq.
  simpl. rewrite !insert_insert_eq. unfold frame_setitem. simpl. rewrite Hc.
  reflexivity.
Qed.

End Columns.

(* ================================================================== *)
(** * Effects of each operation on the heap and on the trace *)
(* ================================================================== *)

Section Effects.
Context {F : Type} `{FloatOps F}.

Lemma untouched_refl (s : State F) : untouched s s.
Proof. by intros l f. Qed.

Lemma untouched_trans (s1 s2 s3 : State F) :
  untouched s1 s2 -> untouched s2 s3 -> untouched s1 s3.
Proof. intros H12 H23 l f Hl. eauto. Qed.

Lemma fresh_unused (h : gmap loc (Frame F)) : h !! fresh (dom h) = None.
Proof. apply not_elem_of_dom, is_fresh. Qed.

Lemma untouched_alloc (s : State F) (f : Frame F) :
  untouched s {| heap := <[fresh (dom (heap s)) := f]> (heap s); trace := trace s |}.
Proof.
  intros l g Hl. simpl. rewrite lookup_insert_ne; [done|].
  intros <-. by rewrite fresh_unused in Hl.
Qed.

(** Mutating an object that [s0] does not have leaves the objects of
    [s0] untouched. *)
Lemma untouched_store (s0 s : State F) (l : loc) (f : Frame F) t :
  heap s0 !! l = None ->
  untouched s0 s ->
  untouched s0 {| heap := <[l := f]> (heap s); trace := t |}.
Proof.
  intros Hnew Hs l' g Hl. simpl. rewrite lookup_insert_ne; [by apply Hs|].
  intros <-. by rewrite Hnew in Hl.
Qed.

Lemma load_cases (l : loc) (s : State F) :
  (exists f, heap s !! l = Some f /\ load l s = (Ok f, s))
  \/ (heap s !! l = None /\ load l s = (Raise InvalidRef, s)).
Proof. unfold load. destruct (heap s !! l); eauto. Qed.

Lemma load_state (l : loc) (s : State F) : (load l s).2 = s.
Proof. destruct (load_cases l s) as [(f & _ & ->)|[_ ->]]; done. Qed.

Lemma of_option_state {A} (o : option A) e (s : State F) : (of_option o e s).2 = s.
Proof. by destruct o. Qed.

Lemma df_getitem_state (l : loc) name (s : State F) : (df_getitem l name s).2 = s.
Proof.
  unfold df_getitem. rewrite run_bind.
  destruct (load_cases l s) as [(f & _ & ->)|[_ ->]]; [|done].
  apply of_option_state.
Qed.

Lemma df_index_state (l : loc) (s : State F) : (df_index l s).2 = s.
Proof.
  unfold df_index. rewrite run_bind.
  destruct (load_cases l s) as [(f & _ & ->)|[_ ->]]; done.
Qed.

Lemma df_empty_state (l : loc) (s : State F) : (df_empty l s).2 = s.
Proof.
  unfold df_empty. rewrite run_bind.
  destruct (load_cases l s) as [(f & _ & ->)|[_ ->]]; done.
Qed.

Lemma series_iloc_state (xs : list F) i (s : State F) : (series_iloc xs i s).2 = s.
Proof. apply of_option_state. Qed.

Lemma df_copy_cases (l : loc) (s : State F) :
  (exists f, heap s !! l = Some f /\
     df_copy l s = (Ok (fresh (dom (heap s))),
                    {| heap := <[fresh (dom (heap s)) := f]> (heap s);
                       trace := trace s |}))
  \/ df_copy l s = (Raise InvalidRef, s).
Proof.
  destruct (load_cases l s) as [(f & Hl & E)|[_ E]].
  - left. exists f. split; [done|]. by apply run_df_copy.
  - right. unfold df_copy. by rewrite (run_bind_raise _ _ _ _ _ E).
Qed.

Lemma df_setitem_cases (l : loc) name (v : list F) (s : State F) :
  (exists f, heap s !! l = Some f /\
     df_setitem l name v s
     = (Ok tt, {| heap := <[l := frame_setitem name v f]> (heap s);
                  trace := trace s |}))
  \/ (exists e, df_setitem l name v s = (Raise e, s)).
Proof.
  destruct (load_cases l s) as [(f & Hl & E)|[_ E]].
  - destruct (decide (length v = length (index f))) as [El|El].
    + left. exists f. split; [done|]. by apply run_df_setitem.
    + right. eexists. unfold df_setitem.
      rewrite (run_bind_ok _ _ _ _ _ E).
      apply Nat.eqb_neq in El. rewrite El. reflexivity.
  - right. eexists. unfold df_setitem. by rewrite (run_bind_raise _ _ _ _ _ E).
Qed.

Lemma df_dropna_cases (l : loc) (s : State F) :
  (exists f, heap s !! l = Some f /\
     df_dropna l s = (Ok (fresh (dom (heap s))),
                      {| heap := <[fresh (dom (heap s)) := frame_dropna f]> (heap s);
                         trace := trace s |}))
  \/ df_dropna l s = (Raise InvalidRef, s).
Proof.
  destruct (load_cases l s) as [(f & Hl & E)|[_ E]].
  - left. exists f. split; [done|]. by apply run_df_dropna.
  - right. unfold df_dropna. by rewrite (run_bind_raise _ _ _ _ _ E).
Qed.

(** [compute_returns] touches no object that was there before the
    call, whatever the frame it is given and however it ends, and it
    prints and shows nothing. *)
Lemma compute_returns_frame fm (l : loc) (s : State F) :
  untouched s (compute_returns fm l s).2
  /\ trace (compute_returns fm l s).2 = trace s.
Proof.
  unfold compute_returns. rewrite run_bind.
  destruct (df_copy_cases l s) as [(f & Hl & ->) | ->];
    [|split; [apply untouched_refl|done]].
  set (l1 := fresh (dom (heap s))).
  set (s1 := {| heap := <[l1:=f]> (heap s); trace := trace s |}).
  assert (Hnew : heap s !! l1 = None) by apply fresh_unused.
  assert (H1 : untouched s s1) by apply untouched_alloc.
  rewrite run_bind.
  pose proof (df_getitem_state l1 "adj_close" s1) as E1.
  destruct (df_getitem l1 "adj_close" s1) as [[adj|e] s2]; simpl in E1; subst s2;
    [|done].
  rewrite run_bind.
  destruct (df_setitem_cases l1 "daily_return"
              (fillna lit0 (pct_change fm adj)) s1) as [(f2 & _ & ->)|[e ->]];
    [|done].
  set (s3 := {| heap := _; trace := _ |}).
  assert (H3 : untouched s s3) by (by apply untouched_store).
  rewrite run_bind.
  pose proof (df_getitem_state l1 "daily_return" s3) as E3.
  destruct (df_getitem l1 "daily_return" s3) as [[daily|e] s4]; simpl in E3; subst s4;
    [|done].
  rewrite run_bind.
  destruct (df_setitem_cases l1 "cumulative_return"
              (sub_scalar (cumprod (radd lit1 daily)) lit1) s3)
    as [(f4 & _ & ->)|[e ->]]; [|done].
  set (s5 := {| heap := _; trace := _ |}).
  assert (H5 : untouched s s5) by (by apply untouched_store).
  destruct (df_dropna_cases l1 s5) as [(f6 & _ & ->) | ->];
    [|split; [exact H5|reflexivity]].
  split; [|reflexivity].
  apply (untouched_trans _ s5); [exact H5|]. apply (untouched_alloc s5).
Qed.

End Effects.

(* ================================================================== *)
(** * Reporter, plotter, fetcher: runs *)
(* ================================================================== *)

Section Pipeline.
Context {F : Type} `{FloatOps F} `{Platform F}.

Lemma iloc_first (xs : list F) : iloc xs 0 = head xs.
Proof. unfold iloc. simpl. by destruct xs. Qed.

Lemma iloc_last (xs : list F) : iloc xs (-1) = last xs.
Proof.
  unfold iloc. simpl (0 <=? -1)%Z. cbv iota.
  destruct xs as [|x t]; [done|].
  replace (Z.of_nat (length (x :: t)) + -1)%Z with (Z.of_nat (length t))
    by (simpl length; lia).
  replace (0 <=? Z.of_nat (length t))%Z with true by (symmetry; apply Z.leb_le; lia).
  rewrite Nat2Z.id. rewrite last_lookup. reflexivity.
Qed.

Lemma run_lift_ok {A} (o : Outcome A) (a : A) (s : State F) :
  o = Ok a -> lift o s = (Ok a, s).
Proof. by intros ->. Qed.

Lemma run_series_iloc (xs : list F) i x (s : State F) :
  iloc xs i = Some x -> series_iloc xs i s = (Ok x, s).
Proof. unfold series_iloc. by intros ->. Qed.

Lemma run_series_iloc_None (xs : list F) i (s : State F) :
  iloc xs i = None -> series_iloc xs i s = (Raise IndexError, s).
Proof. unfold series_iloc. by intros ->. Qed.

(** A run of [summarize_returns] that gets through. *)
Lemma run_summarize_returns (l : loc) (config : AnalysisConfig) (s : State F)
      (f : Frame F) (a c : list F) st en fp lp tr :
  date_range config = Ok (st, en) ->
  heap s !! l = Some f ->
  lookup_column "adj_close" (columns f) = Some a ->
  lookup_column "cumulative_return" (columns f) = Some c ->
  head a = Some fp -> last a = Some lp -> last c = Some tr ->
  summarize_returns l config s
  = (Ok tt, {| heap := heap s;
               trace := trace s ++ summary_lines config st en fp lp tr |}).
Proof.
  intros Hd Hl Ha Hc Hfp Hlp Htr. unfold summarize_returns.
  rewrite (run_bind_ok _ _ _ _ _ (run_lift_ok _ _ s Hd)).
  rewrite (run_bind_ok _ _ _ _ _ (run_df_getitem _ _ _ _ _ Hl Ha)).
  erewrite run_bind_ok; last by (apply run_series_iloc; rewrite iloc_first).
  rewrite (run_bind_ok _ _ _ _ _ (run_df_getitem _ _ _ _ _ Hl Ha)).
  erewrite run_bind_ok; last by (apply run_series_iloc; rewrite iloc_last).
  rewrite (run_bind_ok _ _ _ _ _ (run_df_getitem _ _ _ _ _ Hl Hc)).
  erewrite run_bind_ok; last by (apply run_series_iloc; rewrite iloc_last).
  unfold print, emit, mbind, M_bind, bind, summary_lines. simpl.
  by rewrite <- !app_assoc.
Qed.

(** However [summarize_returns] ends, it changes no object; when it
    raises, it has printed nothing. *)
Lemma summarize_returns_effect (l : loc) (config : AnalysisConfig) (s : State F) :
  heap (summarize_returns l config s).2 = heap s
  /\ (forall e, (summarize_returns l config s).1 = Raise e ->
                (summarize_returns l config s).2 = s).
Proof.
  unfold summarize_returns. rewrite run_bind.
  destruct (date_range config) as [[st en]|e0]; simpl; [|by split].
  rewrite run_bind. pose proof (df_getitem_state l "adj_close" s) as E.
  destruct (df_getitem l "adj_close" s) as [[a|e1] s1]; simpl in E; subst s1;
    [|by split].
  rewrite run_bind. pose proof (series_iloc_state a 0 s) as E.
  destruct (series_iloc a 0 s) as [[fp|e1] s1]; simpl in E; subst s1; [|by split].
  rewrite run_bind. pose proof (df_getitem_state l "adj_close" s) as E.
  destruct (df_getitem l "adj_close" s) as [[a'|e1] s1]; simpl in E; subst s1;
    [|by split].
  rewrite run_bind. pose proof (series_iloc_state a' (-1) s) as E.
  destruct (series_iloc a' (-1) s) as [[lp|e1] s1]; simpl in E; subst s1; [|by split].
  rewrite run_bind. pose proof (df_getitem_state l "cumulative_return" s) as E.
  destruct (df_getitem l "cumulative_return" s) as [[c|e1] s1]; simpl in E; subst s1;
    [|by split].
  rewrite run_bind. pose proof (series_iloc_state c (-1) s) as E.
  destruct (series_iloc c (-1) s) as [[tr|e1] s1]; simpl in E; subst s1; [|by split].
  split; [reflexivity|]. intros e. discriminate.
Qed.

Lemma plot_returns_heap (l : loc) (config : AnalysisConfig) (s : State F) :
  heap (plot_returns l config s).2 = heap s.
Proof.
  unfold plot_returns. rewrite run_bind.
  pose proof (df_index_state l s) as E.
  destruct (df_index l s) as [[i|e1] s1]; simpl in E; subst s1; [|done].
  rewrite run_bind. pose proof (df_getitem_state l "adj_close" s) as E.
  destruct (df_getitem l "adj_close" s) as [[a|e1] s1]; simpl in E; subst s1; [|done].
  rewrite run_bind. pose proof (df_index_state l s) as E.
  destruct (df_index l s) as [[i'|e1] s1]; simpl in E; subst s1; [|done].
  rewrite run_bind. pose proof (df_getitem_state l "cumulative_return" s) as E.
  destruct (df_getitem l "cumulative_return" s) as [[c|e1] s1]; simpl in E; subst s1;
    [|done].
  reflexivity.
Qed.

End Pipeline.

Section Fetcher.
Context {F : Type} `{FloatOps F} `{Platform F}.

Lemma fetch_price_history_run (config : AnalysisConfig) (s : State F) :
  fetch_result config s (fetch_price_history config s).
Proof.
  unfold fetch_price_history, yf_download.
  destruct (download (ticker config) (start_date config) (end_date config))
    as [payload|table] eqn:Ed.
  { rewrite (run_bind_raise _ _ s s (ProviderError payload)); [|done].
    by apply fetch_provider_failure. }
  set (l0 := fresh (dom (heap s))).
  set (s0 := {| heap := <[l0 := table]> (heap s); trace := trace s |}).
  rewrite (run_bind_ok _ _ s s0 l0); [|done].
  assert (Hl0 : heap s0 !! l0 = Some table) by apply lookup_insert_eq.
  rewrite (run_bind_ok _ _ _ _ _ (run_df_empty _ _ _ Hl0)).
  destruct (frame_empty table) eqn:Ee.
  { by apply fetch_no_data. }
  unfold df_select. rewrite run_bind.
  rewrite (run_bind_ok _ _ _ _ _ (run_load _ _ _ Hl0)).
  destruct (select_columns ["Adj Close"] (columns table)) as [k|cols] eqn:Es.
  { by apply (fetch_no_column config s table k). }
  unfold alloc at 1. cbv beta iota.
  unfold df_rename. erewrite run_bind_ok; last first.
  { apply run_load. apply lookup_insert_eq. }
  by apply (fetch_table config s table cols).
Qed.

Lemma fetch_price_history_trace (config : AnalysisConfig) (s : State F) :
  trace (fetch_price_history config s).2 = trace s.
Proof. by destruct (fetch_price_history_run config s). Qed.

(** An exception of the fetcher ends the run on the spot. *)
Lemma main_fetch_raise fm (argv : Argv) (s s' : State F) e :
  fetch_price_history (parse_args argv) s = (Raise e, s') ->
  main fm argv s = (Raise e, s').
Proof. intros E. unfold main. by rewrite (run_bind_raise _ _ _ _ _ E). Qed.

(** After the fetcher, nothing changes an object that exists. *)
Lemma main_after_fetch fm (argv : Argv) (s s1 : State F) (l : loc) :
  fetch_price_history (parse_args argv) s = (Ok l, s1) ->
  untouched s1 (main fm argv s).2.
Proof.
  intros E. unfold main. rewrite (run_bind_ok _ _ _ _ _ E). rewrite run_bind.
  destruct (compute_returns_frame fm l s1) as [Hu _].
  destruct (compute_returns fm l s1) as [[r|e] s2]; simpl in Hu; [|done].
  rewrite run_bind.
  destruct (summarize_returns_effect r (parse_args argv) s2) as [Hh _].
  destruct (summarize_returns r (parse_args argv) s2) as [[[]|e] s3]; simpl in Hh.
  - pose proof (plot_returns_heap r (parse_args argv) s3) as Hp.
    intros l' f' Hl'. rewrite Hp, Hh. by apply Hu.
  - intros l' f' Hl'. simpl. rewrite Hh. by apply Hu.
Qed.

End Fetcher.

(* ================================================================== *)
(** * The return series, row by row *)
(* ================================================================== *)

Section RowWise.
Context {F : Type} `{FloatOps F}.

Lemma rows_cons fm prev acc first (p : PricePoint F) t :
  rows fm prev acc first (p :: t)
  = let x := pp_adjusted_close p in
    let d := match fm with
             | Pad => if isnan x then prev else x
             | NoFill => x
             end in
    let pct := fsub (fdiv d prev) lit1 in
    let daily := if isnan pct then lit0 else pct in
    let g := fadd lit1 daily in
    let v := if isnan g then lit1 else g in
    let a := if first then v else fmul acc v in
    let c := fsub (if isnan g then fnan else a) lit1 in
    let rest := rows fm d a false t in
    if negb (isnan x) && (negb (isnan daily) && (negb (isnan c) && true))
    then mkReturnPoint (pp_date p) x daily c :: rest
    else rest.
Proof. reflexivity. Qed.

Lemma data_from_cons fm prev x (t : list F) :
  data_from fm prev (x :: t)
  = (match fm with Pad => if isnan x then prev else x | NoFill => x end)
      :: data_from fm (match fm with Pad => if isnan x then prev else x | NoFill => x end) t.
Proof. by destruct fm. Qed.

Lemma pct_from_cons prev d (t : list F) :
  pct_from prev (d :: t) = fsub (fdiv d prev) lit1 :: pct_from d t.
Proof. reflexivity. Qed.

Lemma cumprod_from_cons first acc g (t : list F) :
  cumprod_from first acc (g :: t)
  = (if isnan g then fnan
     else if first then (if isnan g then lit1 else g)
          else fmul acc (if isnan g then lit1 else g))
      :: cumprod_from false
           (if first then (if isnan g then lit1 else g)
            else fmul acc (if isnan g then lit1 else g)) t.
Proof. unfold cumprod_from. destruct first; simpl; by destruct (isnan g). Qed.

Lemma table_rows_cons d ds x xs y daily z cum :
  table_rows (d :: ds) (x :: xs) (y :: daily) (z :: cum)
  = if negb (isnan x) && (negb (isnan y) && (negb (isnan z) && true))
    then mkReturnPoint d x y z :: table_rows ds xs daily cum
    else table_rows ds xs daily cum.
Proof.
  unfold table_rows, notna_mask. simpl.
  by destruct (negb (isnan x) && (negb (isnan y) && (negb (isnan z) && true))).
Qed.

Lemma fillna_cons v x (t : list F) :
  fillna v (x :: t) = (if isnan x then v else x) :: fillna v t.
Proof. reflexivity. Qed.

Lemma radd_cons c x (t : list F) : radd c (x :: t) = fadd c x :: radd c t.
Proof. reflexivity. Qed.

Lemma sub_scalar_cons c x (t : list F) :
  sub_scalar (x :: t) c = fsub x c :: sub_scalar t c.
Proof. reflexivity. Qed.

Lemma columns_rows fm (ps : list (PricePoint F)) prev acc first :
  let xs := map pp_adjusted_close ps in
  let daily := fillna lit0 (pct_from prev (data_from fm prev xs)) in
  let cum := sub_scalar (cumprod_from first acc (radd lit1 daily)) lit1 in
  table_rows (map pp_date ps) xs daily cum = rows fm prev acc first ps.
Proof.
  revert prev acc first. induction ps as [|p t IH]; intros prev acc first; [done|].
  cbv zeta. rewrite (map_cons pp_adjusted_close), (map_cons pp_date).
  rewrite data_from_cons, pct_from_cons, fillna_cons, radd_cons.
  rewrite cumprod_from_cons, sub_scalar_cons.
  rewrite table_rows_cons. simpl rows.
  set (x := pp_adjusted_close p).
  set (d := match fm with Pad => if isnan x then prev else x | NoFill => x end).
  set (pct := fsub (fdiv d prev) lit1).
  set (daily := if isnan pct then lit0 else pct).
  set (g := fadd lit1 daily).
  set (a := if first then (if isnan g then lit1 else g)
            else fmul acc (if isnan g then lit1 else g)).
  specialize (IH d a false). cbv zeta in IH.
  rewrite IH.
  replace (if isnan g then fnan else a)
    with (if isnan g then fnan
          else (if first then if isnan g then lit1 else g
                else fmul acc (if isnan g then lit1 else g))) by done.
  reflexivity.
Qed.

Lemma return_points_dropna fm (f : Frame F) (xs : list F) :
  return_points (frame_dropna (full_frame fm f xs))
  = Some (table_rows (index f) xs (daily_column fm xs) (cumulative_column fm xs)).
Proof. reflexivity. Qed.

Lemma compute_rows fm (ps : list (PricePoint F)) :
  compute fm ps = Some (rows fm fnan lit1 true ps).
Proof.
  unfold compute.
  rewrite (compute_returns_run fm 0%nat (fresh_state (price_frame ps))
             (price_frame ps) (map pp_adjusted_close ps));
    [|apply lookup_singleton_eq|done|simpl; by rewrite !length_map].
  cbn [heap]. rewrite lookup_insert_eq.
  change (return_points
            (frame_dropna (full_frame fm (price_frame ps) (map pp_adjusted_close ps)))
          = Some (rows fm fnan lit1 true ps)).
  rewrite return_points_dropna. f_equal.
  rewrite <- (columns_rows fm ps fnan lit1 true). cbv zeta.
  unfold daily_column, cumulative_column, pct_change. simpl index.
  destruct fm; reflexivity.
Qed.

End RowWise.

(* ================================================================== *)
(** * Exact arithmetic *)
(* ================================================================== *)

Section Exact.

Lemma xeq_refl a : xeq a a.
Proof. destruct a; simpl; auto with qarith. Qed.

Lemma xeq_sym a b : xeq a b -> xeq b a.
Proof. destruct a, b; simpl; auto with qarith. Qed.

Lemma xeq_trans a b c : xeq a b -> xeq b c -> xeq a c.
Proof.
  destruct a, b, c; simpl; try tauto; try congruence.
  intros E1 E2. by rewrite E1.
Qed.

Lemma Qzero_true q : Qzero q = true <-> (q == 0)%Q.
Proof. apply Qeq_bool_iff. Qed.

Lemma Qzero_false q : Qzero q = false <-> ~ (q == 0)%Q.
Proof.
  unfold Qzero. destruct (Qeq_bool q 0) eqn:E.
  - apply Qeq_bool_iff in E. split; [discriminate|tauto].
  - split; [|done]. intros _ E'. apply Qeq_bool_iff in E'. congruence.
Qed.

Lemma Qzero_compat p q : (p == q)%Q -> Qzero p = Qzero q.
Proof.
  intros E. destruct (Qzero q) eqn:Eq.
  - apply Qzero_true. apply Qzero_true in Eq. by rewrite E.
  - apply Qzero_false. apply Qzero_false in Eq. by rewrite E.
Qed.

Lemma Qneg_true q : Qneg q = true <-> (q < 0)%Q.
Proof.
  unfold Qneg. destruct (Qle_bool 0 q) eqn:E; simpl.
  - apply Qle_bool_iff in E. split; [discriminate|]. intros Hq.
    exfalso. apply (Qlt_not_le _ _ Hq E).
  - split; [|done]. intros _. apply Qnot_le_lt. intros Hq.
    apply Qle_bool_iff in Hq. congruence.
Qed.

Lemma Qneg_compat p q : (p == q)%Q -> Qneg p = Qneg q.
Proof.
  intros E. destruct (Qneg q) eqn:Eq.
  - apply Qneg_true. apply Qneg_true in Eq. by rewrite E.
  - destruct (Qneg p) eqn:Ep; [|done].
    apply Qneg_true in Ep. rewrite E in Ep. apply Qneg_true in Ep. congruence.
Qed.

Lemma xmul_compat a a' b b' : xeq a a' -> xeq b b' -> xeq (xmul a b) (xmul a' b').
Proof.
  destruct a as [p|s|], a' as [p'|s'|], b as [q|t|], b' as [q'|t'|];
    simpl; try tauto; intros E1 E2.
  - by rewrite E1, E2.
  - subst. rewrite (Qzero_compat _ _ E1), (Qneg_compat _ _ E1).
    destruct (Qzero p'); simpl; auto.
  - subst. rewrite (Qzero_compat _ _ E2), (Qneg_compat _ _ E2).
    destruct (Qzero q'); simpl; auto.
  - by subst.
Qed.

Lemma xsub_compat a a' : xeq a a' -> xeq (xsub a (Num 1)) (xsub a' (Num 1)).
Proof.
  destruct a as [p|s|], a' as [p'|s'|]; simpl; try tauto; intros E.
  by rewrite E.
Qed.

(** [1 + (a - 1)] is [a], also at the special values. *)
Lemma xadd_sub_one a : xeq (xadd (Num 1) (xsub a (Num 1))) a.
Proof. destruct a as [p|s|]; simpl; [ring|done|done]. Qed.

Lemma xmul_one_l a : xeq (xmul (Num 1) a) a.
Proof.
  destruct a as [p|s|]; simpl; [ring| |done].
  by destruct s.
Qed.

Lemma xmul_one_r a g : xeq g (Num 1) -> xeq (xmul a g) a.
Proof.
  intros E. apply (xeq_trans _ (xmul a (Num 1))).
  - apply xmul_compat; [apply xeq_refl|done].
  - destruct a as [p|s|]; simpl; [ring| |done]. by destruct s.
Qed.

Lemma xisnan_sub_one a : xisnan (xsub a (Num 1)) = xisnan a.
Proof. by destruct a. Qed.

Lemma xisnan_add_one a : xisnan (xadd (Num 1) a) = xisnan a.
Proof. by destruct a. Qed.

Lemma xisnan_fill a : xisnan (if xisnan a then Num 0 else a) = false.
Proof. by destruct a. Qed.

Lemma xeq_not_nan a b : xeq a b -> xisnan a = xisnan b.
Proof. destruct a, b; simpl; tauto. Qed.

End Exact.

Section ExactRows.

Lemma xdaily_not_nan fm prev x : xisnan (xdaily fm prev x) = false.
Proof. unfold xdaily. apply xisnan_fill. Qed.

(** In exact arithmetic a growth factor is never missing, so the
    running product skips nothing. *)
Lemma rows_exact_cons fm prev acc first (p : PricePoint xnum) t :
  rows fm prev acc first (p :: t)
  = let x := pp_adjusted_close p in
    let daily := xdaily fm prev x in
    let g := xadd (Num 1) daily in
    let a := if first then g else xmul acc g in
    let rest := rows fm (xdata fm prev x) a false t in
    if negb (xisnan x) && negb (xisnan a)
    then mkReturnPoint (pp_date p) x daily (xsub a (Num 1)) :: rest
    else rest.
Proof.
  rewrite rows_cons. cbv zeta.
  change (@isnan xnum xnum_ops) with xisnan.
  change (@fadd xnum xnum_ops) with xadd.
  change (@fsub xnum xnum_ops) with xsub.
  change (@fmul xnum xnum_ops) with xmul.
  change (@fdiv xnum xnum_ops) with xdiv.
  change (@lit0 xnum xnum_ops) with (Num 0).
  change (@lit1 xnum xnum_ops) with (Num 1).
  change (@fnan xnum xnum_ops) with NaN.
  set (x := pp_adjusted_close p).
  fold (xdata fm prev x). fold (xdaily fm prev x).
  rewrite xisnan_add_one, xdaily_not_nan, xisnan_sub_one.
  rewrite andb_true_r. reflexivity.
Qed.

(** Once the running product is undefined, no row is kept. *)
Lemma rows_nan fm prev (ps : list (PricePoint xnum)) :
  rows fm prev NaN false ps = [].
Proof.
  revert prev. induction ps as [|p t IH]; intros prev; [done|].
  rewrite rows_exact_cons. cbv zeta. simpl xmul.
  rewrite IH. by rewrite andb_false_r.
Qed.

(** A row whose price is missing has growth factor 1. *)
Lemma growth_of_missing fm prev x :
  xisnan x = true -> xeq (xadd (Num 1) (xdaily fm prev x)) (Num 1).
Proof.
  intros Hx. destruct x; try discriminate. unfold xdaily, xdata.
  destruct fm; simpl; [|ring].
  destruct prev as [q|s|]; simpl; [| |ring].
  - destruct (Qzero q) eqn:Eq; simpl; [ring|].
    apply Qzero_false in Eq. field. exact Eq.
  - destruct s; simpl; ring.
Qed.

(** The running product carried along the rows is the product of the
    growth factors of the rows kept so far. *)
Lemma rows_running_product fm (ps : list (PricePoint xnum)) :
  forall (prev acc : xnum) (first : bool) (P : xnum),
    (if first then P = Num 1 else xeq acc P \/ acc = NaN) ->
    forall i r,
      rows fm prev acc first ps !! i = Some r ->
      exists a,
        rp_cumulative_return r = xsub a (Num 1) /\
        xeq a (foldl xmul P (map growth (take (S i) (rows fm prev acc first ps)))).
Proof.
  induction ps as [|p t IH]; intros prev acc first P HP i r Hr; [done|].
  rewrite rows_exact_cons in Hr |- *. cbv zeta in Hr |- *.
  set (x := pp_adjusted_close p) in *.
  set (g := xadd (Num 1) (xdaily fm prev x)) in *.
  set (a := if first then g else xmul acc g) in *.
  destruct (xisnan a) eqn:Ea.
  { rewrite andb_false_r in Hr. destruct a; try discriminate.
    by rewrite rows_nan in Hr. }
  assert (Ha : xeq a (xmul P g)).
  { subst a. destruct first.
    - subst P. apply xeq_sym, xmul_one_l.
    - destruct HP as [HP| ->]; [|done].
      apply xmul_compat; [done|apply xeq_refl]. }
  rewrite andb_true_r in Hr |- *.
  destruct (xisnan x) eqn:Ex; simpl negb in Hr |- *; cbv iota in Hr |- *.
  - (* the row is dropped and counts for nothing *)
    apply (IH _ a false P); [|done]. left.
    apply (xeq_trans _ _ _ Ha). apply xmul_one_r.
    by apply growth_of_missing.
  - destruct i as [|j].
    + simpl in Hr. injection Hr as <-. exists a. split; [done|].
      simpl. exact Ha.
    + simpl in Hr.
      destruct (IH (xdata fm prev x) a false (xmul P g) (or_introl Ha) j r Hr)
        as (b & Hb & Eb).
      exists b. split; [done|]. exact Eb.
Qed.

(** ** No price is zero *)

Lemma rows_nonzero_later fm (ps : list (PricePoint xnum)) :
  forall prev acc : xnum,
    Forall nonzero_price ps -> xnonzero prev -> xfinite acc ->
    map rp_date (rows fm prev acc false ps) = map pp_date ps
    /\ map rp_adjusted_close (rows fm prev acc false ps) = map pp_adjusted_close ps
    /\ map rp_daily_return (rows fm prev acc false ps)
       = ratios prev (map pp_adjusted_close ps).
Proof.
  induction ps as [|p t IH]; intros prev acc Hps Hprev Hacc; [done|].
  apply Forall_cons in Hps as [Hp Ht].
  rewrite rows_exact_cons. cbv zeta.
  unfold nonzero_price in Hp.
  destruct (pp_adjusted_close p) as [q| |] eqn:Ep; try done.
  destruct prev as [p0| |]; try done. destruct acc as [c| |]; try done.
  simpl in Hp, Hprev.
  assert (Ed : xdata fm (Num p0) (Num q) = Num q) by (by destruct fm).
  assert (Edaily : xdaily fm (Num p0) (Num q) = Num (q / p0 + - (1))).
  { unfold xdaily. rewrite Ed. simpl.
    by rewrite (proj2 (Qzero_false p0) Hprev). }
  rewrite Ed, Edaily. simpl xadd. simpl xmul. simpl xisnan. simpl andb. cbv iota.
  destruct (IH (Num q) (Num (c * (1 + (q / p0 + - (1)))))) as (I1 & I2 & I3);
    [done|done|done|].
  simpl map. rewrite I1, I2, I3, Ep. simpl.
  by rewrite (proj2 (Qzero_false p0) Hprev).
Qed.

Lemma rows_nonzero fm (ps : list (PricePoint xnum)) :
  Forall nonzero_price ps ->
  map rp_date (rows fm NaN (Num 1) true ps) = map pp_date ps
  /\ map rp_adjusted_close (rows fm NaN (Num 1) true ps) = map pp_adjusted_close ps
  /\ map rp_daily_return (rows fm NaN (Num 1) true ps)
     = expected_daily (map pp_adjusted_close ps).
Proof.
  intros Hps. destruct ps as [|p t]; [done|].
  apply Forall_cons in Hps as [Hp Ht].
  rewrite rows_exact_cons. cbv zeta.
  unfold nonzero_price in Hp.
  destruct (pp_adjusted_close p) as [q| |] eqn:Ep; try done. simpl in Hp.
  assert (Ed : xdata fm NaN (Num q) = Num q) by (by destruct fm).
  assert (Edaily : xdaily fm NaN (Num q) = Num 0).
  { unfold xdaily. by rewrite Ed. }
  rewrite Ed, Edaily. simpl xadd. simpl xisnan. simpl andb. cbv iota.
  destruct (rows_nonzero_later fm t (Num q) (Num (1 + 0))) as (I1 & I2 & I3);
    [done|done|done|].
  simpl map. by rewrite I1, I2, I3, Ep.
Qed.

End ExactRows.

Section RowsOfAnySeries.
Context {F : Type} `{FloatOps F}.

(** Rows are only ever dropped: what is left is the input, in its
    order, with some rows missing. *)
Lemma rows_sublist fm (ps : list (PricePoint F)) prev acc first :
  sublist (map dated_close (rows fm prev acc first ps)) (map dated_price ps).
Proof.
  revert prev acc first. induction ps as [|p t IH]; intros prev acc first.
  - constructor.
  - rewrite rows_cons. cbv zeta.
    match goal with |- context [if ?b then _ else _] => destruct b end.
    + simpl. apply sublist_skip, IH.
    + simpl. apply sublist_cons, IH.
Qed.

Lemma rows_dates_sublist fm (ps : list (PricePoint F)) prev acc first :
  sublist (map rp_date (rows fm prev acc first ps)) (map pp_date ps).
Proof.
  revert prev acc first. induction ps as [|p t IH]; intros prev acc first.
  - constructor.
  - rewrite rows_cons. cbv zeta.
    match goal with |- context [if ?b then _ else _] => destruct b end.
    + simpl. apply sublist_skip, IH.
    + simpl. apply sublist_cons, IH.
Qed.

Lemma rows_length fm (ps : list (PricePoint F)) :
  length (rows fm fnan lit1 true ps) <= length ps.
Proof.
  pose proof (sublist_length _ _ (rows_dates_sublist fm ps fnan lit1 true)) as Hl.
  by rewrite !length_map in Hl.
Qed.

End RowsOfAnySeries.

(* ================================================================== *)
(** * From the calculator to the reporter *)
(* ================================================================== *)

Section Handover.
Context {F : Type} `{FloatOps F}.

Lemma unzip_rows (ds : list Timestamp) (a d c : list F) :
  length a = length ds -> length d = length ds -> length c = length ds ->
  map rp_date (zip_rows ds a d c) = ds
  /\ map rp_adjusted_close (zip_rows ds a d c) = a
  /\ map rp_daily_return (zip_rows ds a d c) = d
  /\ map rp_cumulative_return (zip_rows ds a d c) = c.
Proof.
  revert a d c. induction ds as [|t ds IH]; intros [|x a] [|y d] [|z c] Ha Hd Hc;
    simpl in *; try done.
  destruct (IH a d c) as (I1 & I2 & I3 & I4); [lia|lia|lia|].
  by rewrite I1, I2, I3, I4.
Qed.

Lemma length_keep {A B} (mask : list bool) (l1 : list A) (l2 : list B) :
  length l1 = length mask -> length l2 = length mask ->
  length (keep mask l1) = length (keep mask l2).
Proof.
  revert l1 l2. induction mask as [|b m IH]; intros [|x l1] [|y l2] H1 H2;
    simpl in *; try done.
  destruct b; simpl; [f_equal|]; apply IH; lia.
Qed.

Lemma length_notna_mask (n : nat) (a d c : list F) :
  length a = n -> length d = n -> length c = n ->
  length (notna_mask n [("adj_close", a); ("daily_return", d);
                        ("cumulative_return", c)]) = n.
Proof.
  intros Ha Hd Hc. unfold notna_mask. simpl.
  rewrite !length_zip_with, !length_map, length_replicate. lia.
Qed.

(** What [compute_returns] hands over is the frame of the return
    series. *)
Lemma dropna_full_frame fm (f : Frame F) (xs : list F) :
  length xs = length (index f) ->
  frame_dropna (full_frame fm f xs)
  = return_frame (table_rows (index f) xs (daily_column fm xs)
                             (cumulative_column fm xs)).
Proof.
  intros Hlen. unfold frame_dropna, full_frame, return_frame, table_rows.
  cbn [index columns map fst snd].
  set (mask := notna_mask (length (index f)) _).
  assert (Hm : length mask = length (index f)).
  { apply length_notna_mask;
      [done|by rewrite length_daily_column|by rewrite length_cumulative_column]. }
  destruct (unzip_rows (keep mask (index f)) (keep mask xs)
              (keep mask (daily_column fm xs))
              (keep mask (cumulative_column fm xs))) as (I1 & I2 & I3 & I4).
  - apply length_keep; congruence.
  - apply length_keep; [rewrite length_daily_column|]; congruence.
  - apply length_keep; [rewrite length_cumulative_column|]; congruence.
  - by rewrite I1, I2, I3, I4.
Qed.

(** On the frame of a price series, wherever it lives,
    [compute_returns] returns a new frame holding the return series
    that [compute] reads off. *)
Lemma compute_returns_series fm (l : loc) (s : State F) (ps : list (PricePoint F)) :
  heap s !! l = Some (price_frame ps) ->
  exists l' s',
    compute_returns fm l s = (Ok l', s')
    /\ heap s' !! l' = Some (return_frame (rows fm fnan lit1 true ps))
    /\ heap s !! l' = None
    /\ trace s' = trace s.
Proof.
  intros Hl.
  pose proof (compute_returns_run fm l s (price_frame ps)
                (map pp_adjusted_close ps) Hl eq_refl) as Hrun.
  cbv zeta in Hrun. rewrite Hrun; [|simpl; by rewrite !length_map].
  eexists _, _. split; [reflexivity|]. cbn [heap trace].
  split; [|split; [|done]].
  - rewrite lookup_insert_eq. f_equal.
    rewrite dropna_full_frame; [|simpl; by rewrite !length_map].
    f_equal. rewrite <- (columns_rows fm ps fnan lit1 true). cbv zeta.
    unfold daily_column, cumulative_column, pct_change. simpl index.
    destruct fm; reflexivity.
  - set (h1 := <[_ := _]> (heap s)).
    pose proof (fresh_unused h1) as Hf.
    destruct (heap s !! fresh (dom h1)) eqn:E; [|done].
    assert (h1 !! fresh (dom h1) = Some f); [|congruence].
    subst h1. rewrite lookup_insert_ne; [done|].
    intros E'. rewrite <- E' in E. by rewrite fresh_unused in E.
Qed.

End Handover.

(* ================================================================== *)
(** * The table before [dropna] *)
(* ================================================================== *)

Section Table.
Context {F : Type} `{FloatOps F}.

Lemma rows_filter fm (ps : list (PricePoint F)) prev acc first :
  rows fm prev acc first ps = List.filter complete_row (all_rows fm prev acc first ps).
Proof.
  revert prev acc first. induction ps as [|p t IH]; intros prev acc first; [done|].
  rewrite rows_cons. cbv zeta. simpl all_rows. simpl List.filter.
  unfold complete_row at 1. simpl. by rewrite IH.
Qed.

Lemma zip_rows_all_rows fm (ps : list (PricePoint F)) prev acc first :
  let xs := map pp_adjusted_close ps in
  let daily := fillna lit0 (pct_from prev (data_from fm prev xs)) in
  let cum := sub_scalar (cumprod_from first acc (radd lit1 daily)) lit1 in
  zip_rows (map pp_date ps) xs daily cum = all_rows fm prev acc first ps.
Proof.
  revert prev acc first. induction ps as [|p t IH]; intros prev acc first; [done|].
  cbv zeta. rewrite (map_cons pp_adjusted_close), (map_cons pp_date).
  rewrite data_from_cons, pct_from_cons, fillna_cons, radd_cons.
  rewrite cumprod_from_cons, sub_scalar_cons. simpl zip_rows. simpl all_rows.
  specialize (IH (match fm with
                  | Pad => if isnan (pp_adjusted_close p) then prev
                           else pp_adjusted_close p
                  | NoFill => pp_adjusted_close p
                  end)). cbv zeta in IH. rewrite IH.
  f_equal.
Qed.

Lemma full_table_rows fm (ps : list (PricePoint F)) :
  full_table fm ps = all_rows fm fnan lit1 true ps.
Proof.
  rewrite <- (zip_rows_all_rows fm ps fnan lit1 true). cbv zeta.
  unfold full_table, daily_column, cumulative_column, pct_change.
  destruct fm; reflexivity.
Qed.

Lemma compute_table fm (ps : list (PricePoint F)) :
  compute fm ps = Some (List.filter complete_row (full_table fm ps)).
Proof. by rewrite compute_rows, rows_filter, full_table_rows. Qed.

Lemma all_rows_dated fm (ps : list (PricePoint F)) prev acc first :
  map dated_close (all_rows fm prev acc first ps) = map dated_price ps.
Proof.
  revert prev acc first. induction ps as [|p t IH]; intros prev acc first; [done|].
  simpl. by rewrite IH.
Qed.

End Table.

(* ================================================================== *)
(** * What follows from the laws of the arithmetic *)
(* ================================================================== *)

Section Laws.
Context {F : Type} `{FloatLaws F}.

Lemma isnan_fill (a : F) : isnan (if isnan a then lit0 else a) = false.
Proof using All. destruct (isnan a) eqn:E; [apply isnan_lit0|exact E]. Qed.

Lemma isnan_growth (a : F) : isnan (fadd lit1 (if isnan a then lit0 else a)) = false.
Proof using All. by rewrite isnan_fadd_lit1, isnan_fill. Qed.

(** With the laws, a row of the table is its price, its daily return,
    and the running product less one. *)
Lemma all_rows_cons fm prev acc first (p : PricePoint F) t :
  all_rows fm prev acc first (p :: t)
  = let x := pp_adjusted_close p in
    let d := match fm with
             | Pad => if isnan x then prev else x
             | NoFill => x
             end in
    let pct := fsub (fdiv d prev) lit1 in
    let daily := if isnan pct then lit0 else pct in
    let a := if first then fadd lit1 daily else fmul acc (fadd lit1 daily) in
    mkReturnPoint (pp_date p) x daily (fsub a lit1) :: all_rows fm d a false t.
Proof using All. simpl. by rewrite isnan_growth. Qed.

Lemma all_rows_first fm (p : PricePoint F) t :
  all_rows fm fnan lit1 true (p :: t)
  = mkReturnPoint (pp_date p) (pp_adjusted_close p) lit0 lit0
      :: all_rows fm (match fm with
                      | Pad => if isnan (pp_adjusted_close p) then fnan
                               else pp_adjusted_close p
                      | NoFill => pp_adjusted_close p
                      end) lit1 false t.
Proof using All.
  rewrite all_rows_cons. cbv zeta.
  rewrite isnan_fsub_lit1, (isnan_fdiv_r _ fnan isnan_fnan).
  by rewrite fadd_lit1_lit0, fsub_lit1_lit1.
Qed.

Lemma all_rows_product_later fm (ps : list (PricePoint F)) prev acc i r :
  all_rows fm prev acc false ps !! i = Some r ->
  rp_cumulative_return r
  = fsub (foldl fmul acc (map growth (take (S i) (all_rows fm prev acc false ps)))) lit1.
Proof using All.
  revert prev acc i. induction ps as [|p t IH]; intros prev acc i Hr; [done|].
  rewrite all_rows_cons in Hr |- *. cbv zeta in Hr |- *.
  destruct i as [|j]; simpl in Hr.
  - by injection Hr as <-.
  - rewrite firstn_cons. simpl. by apply IH.
Qed.

Lemma all_rows_product fm (ps : list (PricePoint F)) i r :
  all_rows fm fnan lit1 true ps !! i = Some r ->
  rp_cumulative_return r
  = fsub (product (map growth (take (S i) (all_rows fm fnan lit1 true ps)))) lit1.
Proof using All.
  destruct ps as [|p t]; [done|]. rewrite all_rows_first. intros Hr.
  unfold product. rewrite firstn_cons. simpl.
  unfold growth at 1. simpl. rewrite fadd_lit1_lit0, fmul_lit1_lit1.
  destruct i as [|j]; simpl in Hr.
  - injection Hr as <-. simpl. by rewrite fsub_lit1_lit1.
  - by apply all_rows_product_later.
Qed.

(** Once the running product is NaN it stays NaN, and no further row
    is kept. *)
Lemma all_rows_dead fm (ps : list (PricePoint F)) prev acc :
  isnan acc = true ->
  Forall (fun r => isnan (rp_cumulative_return r) = true)
         (all_rows fm prev acc false ps).
Proof using All.
  revert prev acc. induction ps as [|p t IH]; intros prev acc Ha; [constructor|].
  rewrite all_rows_cons. cbv zeta.
  assert (Ha' : isnan (fmul acc (fadd lit1
             (if isnan (fsub (fdiv (match fm with
                                    | Pad => if isnan (pp_adjusted_close p) then prev
                                             else pp_adjusted_close p
                                    | NoFill => pp_adjusted_close p
                                    end) prev) lit1)
              then lit0
              else fsub (fdiv (match fm with
                               | Pad => if isnan (pp_adjusted_close p) then prev
                                        else pp_adjusted_close p
                               | NoFill => pp_adjusted_close p
                               end) prev) lit1))) = true)
    by (by apply isnan_fmul_l).
  constructor; [|by apply IH]. simpl. by rewrite isnan_fsub_lit1.
Qed.

Lemma filter_all_missing (l : list (ReturnPoint F)) :
  Forall (fun r => isnan (rp_cumulative_return r) = true) l ->
  List.filter complete_row l = [].
Proof using All.
  induction 1 as [|r l Hr _ IH]; [done|]. simpl.
  unfold complete_row at 1. rewrite Hr. simpl.
  by rewrite !andb_false_r.
Qed.

Lemma rows_dead fm (ps : list (PricePoint F)) prev acc :
  isnan acc = true -> rows fm prev acc false ps = [].
Proof using All.
  intros Ha. rewrite rows_filter. by apply filter_all_missing, all_rows_dead.
Qed.

End Laws.

Section GapFree.
Context {F : Type} `{FloatLaws F}.

Lemma rows_gap_free_cons fm prev acc first (p : PricePoint F) t :
  isnan (pp_adjusted_close p) = false ->
  rows fm prev acc first (p :: t)
  = let x := pp_adjusted_close p in
    let pct := fsub (fdiv x prev) lit1 in
    let daily := if isnan pct then lit0 else pct in
    let a := if first then fadd lit1 daily else fmul acc (fadd lit1 daily) in
    if isnan a then []
    else mkReturnPoint (pp_date p) x daily (fsub a lit1) :: rows fm x a false t.
Proof using All.
  intros Hx. rewrite rows_cons. cbv zeta. rewrite Hx.
  assert (Ed : match fm with
               | Pad => pp_adjusted_close p
               | NoFill => pp_adjusted_close p
               end = pp_adjusted_close p) by (by destruct fm).
  rewrite Ed. rewrite isnan_growth, isnan_fill, isnan_fsub_lit1. simpl.
  destruct (isnan (if first then _ else _)) eqn:Ea; simpl; [|done].
  destruct first.
  - by rewrite isnan_growth in Ea.
  - by apply rows_dead.
Qed.

Lemma all_rows_gap_free_cons fm prev acc first (p : PricePoint F) t :
  isnan (pp_adjusted_close p) = false ->
  all_rows fm prev acc first (p :: t)
  = let x := pp_adjusted_close p in
    let pct := fsub (fdiv x prev) lit1 in
    let daily := if isnan pct then lit0 else pct in
    let a := if first then fadd lit1 daily else fmul acc (fadd lit1 daily) in
    mkReturnPoint (pp_date p) x daily (fsub a lit1) :: all_rows fm x a false t.
Proof using All.
  intros Hx. rewrite all_rows_cons. cbv zeta. rewrite Hx. by destruct fm.
Qed.

(** Without gaps the rows kept are the first rows of the table. *)
Lemma rows_gap_free_prefix fm (ps : list (PricePoint F)) prev acc first :
  gap_free ps ->
  rows fm prev acc first ps `prefix_of` all_rows fm prev acc first ps.
Proof using All.
  revert prev acc first. induction ps as [|p t IH]; intros prev acc first Hps; [done|].
  apply Forall_cons in Hps as [Hp Ht].
  rewrite (rows_gap_free_cons _ _ _ _ _ _ Hp), (all_rows_gap_free_cons _ _ _ _ _ _ Hp).
  cbv zeta. destruct (isnan (if first then _ else _)); [apply prefix_nil|].
  apply prefix_cons. by apply IH.
Qed.

(** ... and a row is kept exactly when its cumulative return is a
    number. *)
Lemma rows_gap_free_kept fm (ps : list (PricePoint F)) prev acc first :
  gap_free ps ->
  forall i r,
    all_rows fm prev acc first ps !! i = Some r ->
    (i < length (rows fm prev acc first ps))%nat
    <-> isnan (rp_cumulative_return r) = false.
Proof using All.
  revert prev acc first. induction ps as [|p t IH]; intros prev acc first Hps i r Hr;
    [done|].
  apply Forall_cons in Hps as [Hp Ht].
  rewrite (rows_gap_free_cons _ _ _ _ _ _ Hp).
  rewrite (all_rows_gap_free_cons _ _ _ _ _ _ Hp) in Hr. cbv zeta in Hr |- *.
  set (a := if first then _ else _) in *.
  destruct (isnan a) eqn:Ea.
  - assert (Hr' : isnan (rp_cumulative_return r) = true).
    { destruct i as [|j]; simpl in Hr.
      - injection Hr as <-. simpl. by rewrite isnan_fsub_lit1.
      - pose proof (all_rows_dead fm t (pp_adjusted_close p) a Ea) as Hd.
        rewrite Forall_lookup in Hd. by apply (Hd j). }
    rewrite Hr'. simpl. split; [lia|done].
  - destruct i as [|j]; simpl in Hr.
    + injection Hr as <-. simpl. rewrite isnan_fsub_lit1, Ea. split; [done|lia].
    + simpl. rewrite <- (IH _ _ _ Ht j r Hr). lia.
Qed.

Lemma rows_gap_free_first fm (p : PricePoint F) t :
  isnan (pp_adjusted_close p) = false ->
  rows fm fnan lit1 true (p :: t)
  = mkReturnPoint (pp_date p) (pp_adjusted_close p) lit0 lit0
      :: rows fm (pp_adjusted_close p) lit1 false t.
Proof using All.
  intros Hp. rewrite (rows_gap_free_cons _ _ _ _ _ _ Hp). cbv zeta.
  rewrite isnan_fsub_lit1, (isnan_fdiv_r _ fnan isnan_fnan).
  rewrite fadd_lit1_lit0, fsub_lit1_lit1.
  assert (E1 : isnan lit1 = false).
  { rewrite <- fadd_lit1_lit0. by rewrite isnan_fadd_lit1, isnan_lit0. }
  by rewrite E1.
Qed.

(** The daily return of a row after the first, without gaps. *)
Lemma all_rows_gap_free_daily fm (ps : list (PricePoint F)) prev acc first :
  gap_free ps ->
  forall i p q r,
    ps !! i = Some p -> ps !! S i = Some q ->
    all_rows fm prev acc first ps !! S i = Some r ->
    rp_daily_return r
    = let pct := fsub (fdiv (pp_adjusted_close q) (pp_adjusted_close p)) lit1 in
      if isnan pct then lit0 else pct.
Proof using All.
  revert prev acc first. induction ps as [|p0 t IH]; intros prev acc first Hps i p q r;
    [done|].
  apply Forall_cons in Hps as [Hp Ht].
  rewrite (all_rows_gap_free_cons _ _ _ _ _ _ Hp). cbv zeta.
  destruct i as [|j]; simpl.
  - intros [= <-] Hq Hr. destruct t as [|q0 t']; [done|].
    simpl in Hq. injection Hq as ->.
    apply Forall_cons in Ht as [Hq _].
    rewrite (all_rows_gap_free_cons _ _ _ _ _ _ Hq) in Hr. cbv zeta in Hr.
    simpl in Hr. by injection Hr as <-.
  - intros Hp' Hq' Hr. by eapply (IH _ _ false Ht j p q r).
Qed.

End GapFree.

(* ================================================================== *)
(** * The laws in binary64 and in exact arithmetic *)
(* ================================================================== *)

Section Binary64.
Local Open Scope Z_scope.

Lemma SFcompare_refl (x : spec_float) :
  x <> S754_nan -> SFcompare x x = Some Eq.
Proof.
  destruct x as [s|s| |s m e]; simpl; try done.
  - by destruct s.
  - intros _. rewrite Z.compare_refl, Pos.compare_cont_refl. by destruct s.
Qed.

Lemma is_nan_Prim2SF (x : float) :
  PrimFloat.is_nan x = true <-> Prim2SF x = S754_nan.
Proof.
  unfold PrimFloat.is_nan. rewrite FloatAxioms.eqb_spec. unfold SFeqb. split.
  - intros Hx. destruct (Prim2SF x) as [s|s| |s m e] eqn:Ex; [| |done|].
    all: by rewrite SFcompare_refl in Hx.
  - by intros ->.
Qed.

Lemma is_nan_false (x : float) :
  PrimFloat.is_nan x = false <-> Prim2SF x <> S754_nan.
Proof.
  rewrite <- is_nan_Prim2SF. by destruct (PrimFloat.is_nan x).
Qed.

(** Rounding a mantissa that is not negative never gives NaN. *)
Lemma shr_1_nonneg mrs : 0 <= shr_m mrs -> 0 <= shr_m (shr_1 mrs).
Proof.
  destruct mrs as [m r s]. simpl. destruct m as [|p|p]; [done| |lia].
  intros _. destruct p; simpl; lia.
Qed.

Lemma iter_pos_shr_1_nonneg p mrs :
  0 <= shr_m mrs -> 0 <= shr_m (SpecFloat.iter_pos shr_1 p mrs).
Proof.
  revert mrs. induction p as [p IH|p IH|]; intros mrs Hm; simpl.
  - apply IH, IH. by apply shr_1_nonneg.
  - by apply IH, IH.
  - by apply shr_1_nonneg.
Qed.

Lemma shr_fexp_nonneg m e l :
  0 <= m -> 0 <= shr_m (fst (shr_fexp prec emax m e l)).
Proof.
  intros Hm. unfold shr_fexp, shr.
  assert (H0 : 0 <= shr_m (shr_record_of_loc m l)).
  { destruct l as [|[]]; simpl; lia. }
  destruct (fexp prec emax (Zdigits2 m + e) - e); simpl; [done| |done].
  by apply iter_pos_shr_1_nonneg.
Qed.

Lemma round_nearest_even_nonneg m l : 0 <= m -> 0 <= round_nearest_even m l.
Proof.
  intros Hm. destruct l as [|[]]; simpl; try lia.
  destruct (Z.even m); lia.
Qed.

Lemma binary_round_aux_not_nan sx mx ex lx :
  0 <= mx -> binary_round_aux prec emax sx mx ex lx <> S754_nan.
Proof.
  intros Hm. unfold binary_round_aux.
  pose proof (shr_fexp_nonneg mx ex lx Hm) as H1.
  destruct (shr_fexp prec emax mx ex lx) as [mrs' e']. simpl in H1.
  pose proof (shr_fexp_nonneg _ e' loc_Exact
                (round_nearest_even_nonneg _ (loc_of_shr_record mrs') H1)) as H2.
  destruct (shr_fexp prec emax _ e' loc_Exact) as [mrs'' e'']. simpl in H2.
  destruct (shr_m mrs'') as [|p|p]; [done| |lia].
  by destruct (e'' <=? emax - prec).
Qed.

Lemma binary_normalize_not_nan m e sz :
  binary_normalize prec emax m e sz <> S754_nan.
Proof.
  unfold binary_normalize, binary_round.
  destruct m as [|p|p]; [done| |].
  - destruct (shl_align p e _) as [mz ez]. by apply binary_round_aux_not_nan.
  - destruct (shl_align p e _) as [mz ez]. by apply binary_round_aux_not_nan.
Qed.

Lemma Prim2SF_one : Prim2SF 1%float = S754_finite false 4503599627370496 (-52).
Proof. reflexivity. Qed.

Lemma is_nan_add_one (a : float) :
  PrimFloat.is_nan (1 + a)%float = PrimFloat.is_nan a.
Proof.
  destruct (PrimFloat.is_nan a) eqn:Ea.
  - apply is_nan_Prim2SF. apply is_nan_Prim2SF in Ea.
    by rewrite add_spec, Ea, Prim2SF_one.
  - apply is_nan_false. apply is_nan_false in Ea.
    rewrite add_spec, Prim2SF_one. unfold SF64add, SFadd.
    destruct (Prim2SF a) as [s|s| |s m e]; try done.
    apply binary_normalize_not_nan.
Qed.

Lemma is_nan_sub_one (a : float) :
  PrimFloat.is_nan (a - 1)%float = PrimFloat.is_nan a.
Proof.
  destruct (PrimFloat.is_nan a) eqn:Ea.
  - apply is_nan_Prim2SF. apply is_nan_Prim2SF in Ea.
    by rewrite sub_spec, Ea, Prim2SF_one.
  - apply is_nan_false. apply is_nan_false in Ea.
    rewrite sub_spec, Prim2SF_one. unfold SF64sub, SFsub.
    destruct (Prim2SF a) as [s|s| |s m e]; try done.
    apply binary_normalize_not_nan.
Qed.

Lemma is_nan_mul_l (a b : float) :
  PrimFloat.is_nan a = true -> PrimFloat.is_nan (a * b)%float = true.
Proof.
  intros Ea. apply is_nan_Prim2SF. apply is_nan_Prim2SF in Ea.
  by rewrite mul_spec, Ea.
Qed.

Lemma is_nan_div_r (a b : float) :
  PrimFloat.is_nan b = true -> PrimFloat.is_nan (a / b)%float = true.
Proof.
  intros Eb. apply is_nan_Prim2SF. apply is_nan_Prim2SF in Eb.
  rewrite div_spec, Eb. unfold SF64div, SFdiv. by destruct (Prim2SF a).
Qed.

Lemma positive_finite_Prim2SF (x : float) :
  positive_finite x = true -> exists m e, Prim2SF x = S754_finite false m e.
Proof.
  unfold positive_finite. rewrite !ltb_spec. intros [H0 Hi]%andb_true_iff.
  change (Prim2SF 0) with (S754_zero false) in H0.
  change (Prim2SF infinity) with (S754_infinity false) in Hi.
  unfold SFltb in *.
  destruct (Prim2SF x) as [s|s| |s m e]; simpl in *; try done.
  - by destruct s.
  - destruct s; [done|]. by eexists _, _.
Qed.

Lemma SFdiv_core_binary_nonneg m1 e1 m2 e2 :
  0 <= (SFdiv_core_binary prec emax (Zpos m1) e1 (Zpos m2) e2).1.1.
Proof.
  unfold SFdiv_core_binary.
  set (s := _ - _ - _).
  set (m' := match s with Zpos _ => _ | Z0 => _ | Zneg _ => _ end).
  assert (Hm : 0 <= m').
  { subst m'. destruct s; [done| |done]. by apply Z.shiftl_nonneg. }
  pose proof (Z.div_pos m' (Zpos m2) Hm eq_refl) as Hq.
  unfold Z.div in Hq. by destruct (Z.div_eucl m' (Zpos m2)).
Qed.

Lemma is_nan_div_positive (a b : float) :
  positive_finite a = true -> positive_finite b = true ->
  PrimFloat.is_nan (b / a)%float = false.
Proof.
  intros (ma & ea & Ea)%positive_finite_Prim2SF (mb & eb & Eb)%positive_finite_Prim2SF.
  apply is_nan_false. rewrite div_spec, Ea, Eb. unfold SF64div, SFdiv.
  pose proof (SFdiv_core_binary_nonneg mb eb ma ea) as Hq.
  destruct (SFdiv_core_binary prec emax (Zpos mb) eb (Zpos ma) ea) as [[mz ez] lz].
  by apply binary_round_aux_not_nan.
Qed.

Lemma is_nan_positive_finite (x : float) :
  positive_finite x = true -> PrimFloat.is_nan x = false.
Proof.
  intros (m & e & E)%positive_finite_Prim2SF. apply is_nan_false. by rewrite E.
Qed.

Lemma binary64_laws : FloatLaws float.
Proof.
  split; try reflexivity.
  - apply is_nan_add_one.
  - apply is_nan_sub_one.
  - apply is_nan_mul_l.
  - apply is_nan_div_r.
Qed.

End Binary64.

#[global] Existing Instance binary64_laws.

Lemma exact_laws : FloatLaws xnum.
Proof.
  split; try reflexivity.
  - by intros [].
  - by intros [].
  - by intros [] b.
  - by intros [] [].
Qed.

#[global] Existing Instance exact_laws.

Section Calculator.
Context {F : Type} `{FloatLaws F}.

Lemma lookup_prefix {A} (l1 l2 : list A) i x :
  l1 `prefix_of` l2 -> l1 !! i = Some x -> l2 !! i = Some x.
Proof using Type. intros [k ->] Hx. by apply lookup_app_l_Some. Qed.

Lemma take_prefix {A} (l1 l2 : list A) i :
  l1 `prefix_of` l2 -> (i <= length l1)%nat -> take i l2 = take i l1.
Proof using Type. intros [k ->] Hi. by apply take_app_le. Qed.

Lemma map_prefix {A B} (f : A -> B) (l1 l2 : list A) :
  l1 `prefix_of` l2 -> map f l1 `prefix_of` map f l2.
Proof using Type. intros [k ->]. exists (map f k). apply map_app. Qed.

Lemma full_table_dated fm (ps : list (PricePoint F)) :
  map dated_close (full_table fm ps) = map dated_price ps.
Proof using Type. rewrite full_table_rows. apply all_rows_dated. Qed.

Lemma full_table_product fm (ps : list (PricePoint F)) i r :
  full_table fm ps !! i = Some r ->
  rp_cumulative_return r
  = fsub (product (map growth (take (S i) (full_table fm ps)))) lit1.
Proof using All. rewrite full_table_rows. apply all_rows_product. Qed.

(** What [compute] returns for a series without gaps. *)
Lemma compute_gap_free fm (ps : list (PricePoint F)) :
  gap_free ps ->
  exists rs,
    compute fm ps = Some rs
    /\ rs `prefix_of` full_table fm ps
    /\ (ps <> [] ->
        exists r0, rs !! 0%nat = Some r0
                   /\ rp_daily_return r0 = lit0 /\ rp_cumulative_return r0 = lit0)
    /\ (forall i r,
           full_table fm ps !! i = Some r ->
           (i < length rs)%nat <-> isnan (rp_cumulative_return r) = false).
Proof using All.
  intros Hps. exists (rows fm fnan lit1 true ps).
  split; [apply compute_rows|]. rewrite full_table_rows.
  split; [by apply rows_gap_free_prefix|]. split.
  - destruct ps as [|p t]; [done|]. intros _.
    apply Forall_cons in Hps as [Hp _].
    rewrite (rows_gap_free_first _ _ _ Hp). by eexists.
  - by apply rows_gap_free_kept.
Qed.

End Calculator.

(* ================================================================== *)
(** * The return calculator *)
(* ================================================================== *)

Lemma lookup_map {A B} (f : A -> B) (l : list A) i x :
  l !! i = Some x -> map f l !! i = Some (f x).
Proof.
  revert i. induction l as [|x' t IH]; intros [|i] Hx; simpl in *; try done.
  - by simplify_eq.
  - by apply IH.
Qed.

Lemma compute_exact fm (ps : list (PricePoint xnum)) :
  compute fm ps = Some (rows fm NaN (Num 1) true ps).
Proof. exact (compute_rows fm ps). Qed.

(** Where nothing is rounded the identity of the specification holds
    as it is written: in exact arithmetic one plus the cumulative
    return of a row is the product of the growth factors of the rows
    up to it. *)
Lemma exact_product_identity
        (fm : FillMethod) (ps : list (PricePoint xnum)) :
  exists rs,
    compute fm ps = Some rs /\
    forall i r,
      rs !! i = Some r ->
      xeq (xadd (Num 1) (rp_cumulative_return r))
          (product (map growth (take (S i) rs)))
      /\ xeq (rp_cumulative_return r)
             (xsub (product (map growth (take (S i) rs))) (Num 1)).
Proof.
  exists (rows fm NaN (Num 1) true ps). split; [apply compute_exact|].
  intros i r Hr.
  destruct (rows_running_product fm ps NaN (Num 1) true (Num 1) eq_refl i r Hr)
    as (a & Ec & Ea).
  change (product (map growth (take (S i) (rows fm NaN (Num 1) true ps))))
    with (foldl xmul (Num 1) (map growth (take (S i) (rows fm NaN (Num 1) true ps)))).
  rewrite Ec. split.
  - apply (xeq_trans _ a); [apply xadd_sub_one|done].
  - by apply xsub_compat.
Qed.

(** C1, as stated, fails in binary64: for the prices 1, 3 and [2^53 + 2]
    the product of the three growth factors is 9007199254740994, the
    cumulative return of the third row is that product less one, rounded
    to 9007199254740992, and adding one back leaves 9007199254740992.
    The two sides differ by 2: they are neither equal nor within
    1e-9. *)
Lemma rounding_breaks_the_product_identity :
  ~ product_identity float eq
  /\ ~ product_identity float (fun a b => close64 a b = true).
Proof.
  split.
  - intros Hc. destruct (Hc Pad rounding_binary64) as (rs & Hrs & Hid).
    vm_compute in Hrs. injection Hrs as <-.
    specialize (Hid 2%nat _ eq_refl). vm_compute in Hid.
    by apply (f_equal (PrimFloat.eqb 9007199254740992)) in Hid.
  - intros Hc. destruct (Hc Pad rounding_binary64) as (rs & Hrs & Hid).
    vm_compute in Hrs. injection Hrs as <-.
    specialize (Hid 2%nat _ eq_refl). by vm_compute in Hid.
Qed.

(** C1, amended. In binary64, for every price series: the result of
    [compute] is the table of all input rows without the rows that hold
    a NaN; in that table, at every row [i], the cumulative return is the
    product of the growth factors [1 + daily_return] of rows [0..i],
    multiplied from left to right and rounded at each step, less one:
    the running product of the code is the product taken from scratch
    over each prefix. When no adjusted close is missing the rows
    returned are the first rows of that table (at least one when the
    series is not empty), so the same holds row for row in the
    result. *)
Theorem cumulative_return_is_running_product
        (fm : FillMethod) (ps : list (PricePoint float)) :
  compute fm ps = Some (List.filter complete_row (full_table fm ps))
  /\ map dated_close (full_table fm ps) = map dated_price ps
  /\ (forall i r,
         full_table fm ps !! i = Some r ->
         rp_cumulative_return r
         = fsub (product (map growth (take (S i) (full_table fm ps)))) lit1)
  /\ (gap_free ps ->
      exists rs,
        compute fm ps = Some rs
        /\ rs `prefix_of` full_table fm ps
        /\ (ps <> [] -> rs <> [])
        /\ forall i r,
            rs !! i = Some r ->
            rp_cumulative_return r
            = fsub (product (map growth (take (S i) rs))) lit1).
Proof.
  split; [apply compute_table|]. split; [apply full_table_dated|].
  split; [apply (full_table_product fm ps)|].
  intros Hps. destruct (compute_gap_free fm ps Hps) as (rs & Hrs & Hpre & H0 & _).
  exists rs. split; [done|]. split; [done|]. split.
  - intros Hne. destruct (H0 Hne) as (r0 & Hr0 & _). by destruct rs.
  - intros i r Hr.
    rewrite <- (take_prefix rs (full_table fm ps) (S i) Hpre).
    + apply (full_table_product fm ps). by apply (lookup_prefix rs).
    + by apply lookup_lt_Some in Hr.
Qed.




(** C4, as stated, fails: no value of the series 100, 0, 50 is missing,
    and the result has lost the third day, in exact arithmetic and in
    binary64 alike. *)
Lemma zero_price_drops_a_row :
  ~ dates_kept_when_nothing_missing xnum /\ ~ dates_kept_when_nothing_missing float.
Proof.
  split.
  - intros Hc. destruct (Hc NoFill zero_price_exact) as (rs & Hrs & Hd).
    + repeat constructor.
    + vm_compute in Hrs. injection Hrs as <-. discriminate Hd.
  - intros Hc. destruct (Hc NoFill zero_price_binary64) as (rs & Hrs & Hd).
    + repeat constructor.
    + vm_compute in Hrs. injection Hrs as <-. discriminate Hd.
Qed.

(** C4, amended. For every price series, in any float arithmetic, the
    dates of the result are the dates of the input with some of them
    left out, in the same order, so the result is no longer than the
    input. In binary64, when no adjusted close is missing, the rows
    returned are the first rows of the input, dates and adjusted closes
    unchanged, at least one when the input is not empty; row [i] of the
    input is returned exactly when its cumulative return, computed
    before [dropna], is not NaN. *)
Theorem dates_are_preserved (fm : FillMethod) :
  (forall (F : Type) (ops : FloatOps F) (ps : list (PricePoint F)),
      exists rs,
        compute fm ps = Some rs /\
        sublist (map rp_date rs) (map pp_date ps) /\
        length rs <= length ps)
  /\ (forall ps : list (PricePoint float),
         gap_free ps ->
         exists rs,
           compute fm ps = Some rs /\
           map dated_close rs `prefix_of` map dated_price ps /\
           (ps <> [] -> rs <> []) /\
           (forall i r,
               full_table fm ps !! i = Some r ->
               (i < length rs)%nat <-> isnan (rp_cumulative_return r) = false)).
Proof.
  split.
  - intros F ops ps. exists (rows fm fnan lit1 true ps).
    split; [apply compute_rows|].
    split; [apply rows_dates_sublist|apply rows_length].
  - intros ps Hps.
    destruct (compute_gap_free fm ps Hps) as (rs & Hrs & Hpre & H0 & Hk).
    exists rs. split; [done|]. split; [|split; [|done]].
    + rewrite <- (full_table_dated fm ps). by apply map_prefix.
    + intros Hne. destruct (H0 Hne) as (r0 & Hr0 & _). by destruct rs.
Qed.

(** C8. The prices 100, 110, 99 on consecutive days give the daily
    returns 0, 0.10, -0.10 and the cumulative returns 0, 0.10, -0.01:
    exactly so in exact arithmetic, and within 1e-9 in binary64. *)
Theorem scenario_100_110_99 (fm : FillMethod) :
  (exists rs,
      compute fm scenario_exact = Some rs /\
      Forall2 xeq (map rp_daily_return rs) [Num 0; Num (1 # 10); Num (-1 # 10)] /\
      Forall2 xeq (map rp_cumulative_return rs) [Num 0; Num (1 # 10); Num (-1 # 100)])
  /\
  (exists rs,
      compute fm scenario_binary64 = Some rs /\
      Forall2 (fun a b => close64 a b = true) (map rp_daily_return rs)
              [0; 1 / 10; -1 / 10]%float /\
      Forall2 (fun a b => close64 a b = true) (map rp_cumulative_return rs)
              [0; 1 / 10; -1 / 100]%float).
Proof.
  split.
  - exists (rows fm NaN (Num 1) true scenario_exact).
    split; [apply compute_exact|].
    destruct fm; split; repeat constructor.
  - eexists. split.
    + destruct fm; vm_compute; reflexivity.
    + destruct fm; split; repeat constructor.
Qed.

(* ================================================================== *)
(** * Configuration *)
(* ================================================================== *)

(** C6. Constructing a configuration succeeds for any ticker and date
    strings, a start date after the end date included; an omitted value
    takes its default "^IXIC", "2005-01-01" or "2025-10-28"; nothing is
    validated, the strings are stored as given. The command line
    applies the same defaults. *)
Theorem configuration_is_stored_unchecked :
  (forall t s e : string,
      new_AnalysisConfig (Some t) (Some s) (Some e) = mkAnalysisConfig t s e)
  /\ (forall t s e : option string,
         ticker (new_AnalysisConfig t s e) = default "^IXIC" t
         /\ start_date (new_AnalysisConfig t s e) = default "2005-01-01" s
         /\ end_date (new_AnalysisConfig t s e) = default "2025-10-28" e)
  /\ new_AnalysisConfig None None None
     = mkAnalysisConfig "^IXIC" "2005-01-01" "2025-10-28"
  /\ new_AnalysisConfig None (Some "2025-01-01") (Some "2020-01-01")
     = mkAnalysisConfig "^IXIC" "2025-01-01" "2020-01-01"
  /\ (forall argv : Argv,
         parse_args argv
         = new_AnalysisConfig (arg_ticker argv) (arg_start_date argv) (arg_end_date argv)).
Proof.
  split; [done|]. split; [done|]. split; [done|]. split; [done|].
  intros [[t|] [s|] [e|]]; reflexivity.
Qed.

(** C7, as stated, fails: what makes [date_range] fail is the verdict
    of [datetime.fromisoformat], and that is not validity under
    ISO 8601. The ordinal date 2005-001 is a valid ISO 8601 date and the
    parser rejects it; 2005-01-01x10:30 is no ISO 8601 date and the
    parser accepts it, since any character may stand between date and
    time. Whatever else a parser does, either fact refutes the claim;
    the parser of the documented form has both. *)
Lemma iso8601_is_not_what_the_parser_accepts :
  (forall (F : Type) (P : Platform F),
      fromisoformat "2005-001" = None ->
      ~ date_range_fails_on_invalid_iso8601)
  /\ (forall (F : Type) (P : Platform F),
         is_Some (fromisoformat "2005-01-01x10:30") ->
         ~ date_range_fails_on_invalid_iso8601)
  /\ iso8601_date "2005-001" = true
  /\ iso8601_date "2005-01-01x10:30" = false
  /\ @fromisoformat xnum documented_platform "2005-001" = None
  /\ is_Some (@fromisoformat xnum documented_platform "2005-01-01x10:30")
  /\ ~ @date_range_fails_on_invalid_iso8601 xnum documented_platform.
Proof.
  assert (H1 : forall (F : Type) (P : Platform F),
             fromisoformat "2005-001" = None ->
             ~ date_range_fails_on_invalid_iso8601).
  { intros F P Hrej Hc.
    destruct (Hc (mkAnalysisConfig "^IXIC" "2005-001" "2025-10-28")) as [Hok _].
    destruct (Hok eq_refl eq_refl) as (s & e & Hr).
    unfold date_range in Hr. simpl in Hr. by rewrite Hrej in Hr. }
  split; [exact H1|]. split.
  - intros F P [d Hacc] Hc.
    destruct (Hc (mkAnalysisConfig "^IXIC" "2005-01-01x10:30" "2005-01-01x10:30"))
      as [_ [_ Hfail]].
    destruct Hfail as [msg Hr]; [by left|].
    unfold date_range in Hr. simpl in Hr. by rewrite Hacc in Hr.
  - split; [reflexivity|]. split; [reflexivity|]. split; [reflexivity|].
    split; [by eexists|]. by apply H1.
Qed.

(** C7, amended. [date_range] returns the two parsed dates when
    [datetime.fromisoformat] accepts both stored strings, and raises
    the ValueError of the parser (the FormatError of the specification)
    exactly when the parser rejects at least one of them; it raises
    nothing else. *)
Theorem date_range_parses_or_fails {F : Type} `{Platform F} (config : AnalysisConfig) :
  (forall s e,
      fromisoformat (start_date config) = Some s ->
      fromisoformat (end_date config) = Some e ->
      date_range config = Ok (s, e))
  /\ ((exists msg, date_range config = Raise (ValueError msg))
      <-> (fromisoformat (start_date config) = None
           \/ fromisoformat (end_date config) = None))
  /\ (forall x, date_range config = Raise x -> exists msg, x = ValueError msg).
Proof.
  unfold date_range.
  destruct (fromisoformat (start_date config)) as [s|] eqn:Es;
    destruct (fromisoformat (end_date config)) as [e|] eqn:Ee.
  - split; [by intros ? ? [= <-] [= <-]|]. split.
    + split; [by intros [msg Hm]|by intros [|]].
    + done.
  - split; [done|]. split.
    + split; [by right|]. intros _. by eexists.
    + intros x [= <-]. by eexists.
  - split; [done|]. split.
    + split; [by left|]. intros _. by eexists.
    + intros x [= <-]. by eexists.
  - split; [done|]. split.
    + split; [by left|]. intros _. by eexists.
    + intros x [= <-]. by eexists.
Qed.

(* ================================================================== *)
(** * Fetcher, reporter and the whole run *)
(* ================================================================== *)

(** C3. For every configuration the fetcher raises NoDataError exactly
    when the provider returns an empty table; and a run whose fetcher
    raises it ends with that exception, having printed no summary and
    shown no chart. *)
Theorem no_data_aborts_the_run {F : Type} `{FloatOps F} `{Platform F}
        (fm : FillMethod) (s : State F) :
  (forall config : AnalysisConfig,
      (fetch_price_history config s).1 = Raise NoDataError
      <-> exists table,
          download (ticker config) (start_date config) (end_date config) = inr table
          /\ frame_empty table = true)
  /\ (forall argv : Argv,
         (fetch_price_history (parse_args argv) s).1 = Raise NoDataError ->
         (main fm argv s).1 = Raise NoDataError
         /\ trace (main fm argv s).2 = trace s).
Proof.
  split.
  - intros config. split.
    + intros Hr.
      destruct (fetch_price_history_run config s) as [p Hd|t Hd He|t k Hd He Hk|t c Hd He Hc];
        simpl in Hr; try discriminate.
      by exists t.
    + intros (table & Hd & He).
      destruct (fetch_price_history_run config s) as [p Hd'|t Hd' He'|t k Hd' He' Hk|t c Hd' He' Hc];
        simpl; try done; congruence.
  - intros argv Hr.
    pose proof (fetch_price_history_trace (parse_args argv) s) as Ht.
    destruct (fetch_price_history (parse_args argv) s) as [o s'] eqn:E.
    simpl in Hr, Ht. subst o.
    rewrite (main_fetch_raise fm argv s s' _ E). simpl. by split.
Qed.

(** C9. [compute_returns] leaves every object that exists when it is
    called as it is, its argument among them, whatever frame that is and
    however the call ends; and from the moment the fetcher has returned
    the price series, no later stage of the run changes it. *)
Theorem price_series_is_never_mutated {F : Type} `{FloatOps F} `{Platform F}
        (fm : FillMethod) :
  (forall (price_history : loc) (s : State F) (l : loc) (f : Frame F),
      heap s !! l = Some f ->
      heap (compute_returns fm price_history s).2 !! l = Some f)
  /\ (forall (argv : Argv) (s s1 : State F) (price_history : loc) (f : Frame F),
         fetch_price_history (parse_args argv) s = (Ok price_history, s1) ->
         heap s1 !! price_history = Some f ->
         heap (main fm argv s).2 !! price_history = Some f)
  /\ (forall (returns : loc) (config : AnalysisConfig) (s : State F),
         heap (summarize_returns returns config s).2 = heap s
         /\ heap (plot_returns returns config s).2 = heap s).
Proof.
  split; [|split].
  - intros ph s l f Hl. by apply (compute_returns_frame fm ph s).
  - intros argv s s1 ph f E Hl. by apply (main_after_fetch fm argv s s1 ph E).
  - intros r config s. split.
    + apply summarize_returns_effect.
    + apply plot_returns_heap.
Qed.

(** A run of [summarize_returns] on the frame of a non-empty return
    series. *)
Lemma run_summarize_series {F : Type} `{FloatOps F} `{Platform F}
      (rs : list (ReturnPoint F)) (r0 rn : ReturnPoint F)
      (returns : loc) (config : AnalysisConfig) (s : State F)
      (start end_ : DateTime) :
  head rs = Some r0 ->
  last rs = Some rn ->
  heap s !! returns = Some (return_frame rs) ->
  date_range config = Ok (start, end_) ->
  summarize_returns returns config s
  = (Ok tt,
     {| heap := heap s;
        trace := trace s ++
          summary_lines config start end_ (rp_adjusted_close r0)
                        (rp_adjusted_close rn) (rp_cumulative_return rn) |}).
Proof.
  intros Hfirst Hn Hl Hd.
  apply (run_summarize_returns returns config s (return_frame rs)
           (map rp_adjusted_close rs) (map rp_cumulative_return rs)); try done.
  - destruct rs; simpl in *; by simplify_eq.
  - rewrite last_lookup, length_map. rewrite last_lookup in Hn.
    by apply lookup_map.
  - rewrite last_lookup, length_map. rewrite last_lookup in Hn.
    by apply lookup_map.
Qed.

(** C5. For every non-empty return series, [summarize_returns] prints,
    after the header, the adjusted close of the first element, the
    adjusted close of the last element and the cumulative return of the
    last element, each through its formatter; the configuration
    contributes the header only. This holds for the frame of any return
    series, and so for the one [compute_returns] has just built from a
    price series. *)
Theorem summary_reads_first_and_last {F : Type} `{FloatOps F} `{Platform F}
        (config : AnalysisConfig) (start end_ : DateTime)
        (rs : list (ReturnPoint F)) (r0 rn : ReturnPoint F) :
  date_range config = Ok (start, end_) ->
  head rs = Some r0 ->
  last rs = Some rn ->
  let lines :=
    [Printed (summary_header config start end_);
     Printed ("  Starting adjusted close: $"
                ++ format_money (rp_adjusted_close r0));
     Printed ("  Ending adjusted close:   $"
                ++ format_money (rp_adjusted_close rn));
     Printed ("  Total cumulative return: "
                ++ format_percent (rp_cumulative_return rn))] in
  (forall (returns : loc) (s : State F),
      heap s !! returns = Some (return_frame rs) ->
      summarize_returns returns config s
      = (Ok tt, {| heap := heap s; trace := (trace s ++ lines)%list |}))
  /\ (forall (fm : FillMethod) (ps : list (PricePoint F))
             (price_history : loc) (s : State F),
         heap s !! price_history = Some (price_frame ps) ->
         compute fm ps = Some rs ->
         let run := (compute_returns fm price_history
                       ≫= fun returns => summarize_returns returns config) s in
         run.1 = Ok tt /\ trace run.2 = (trace s ++ lines)%list).
Proof.
  intros Hd Hfirst Hlast lines. split.
  - intros returns s Hl.
    apply (run_summarize_series rs r0 rn returns config s start end_); done.
  - intros fm ps ph s Hl Hrs.
    rewrite compute_rows in Hrs. injection Hrs as Hrs.
    destruct (compute_returns_series fm ph s ps Hl) as (l' & s' & Hrun & Hl' & _ & Ht).
    rewrite Hrs in Hl'. cbv zeta.
    rewrite (run_bind_ok _ _ _ _ _ Hrun).
    rewrite (run_summarize_series rs r0 rn l' config s' start end_); try done.
    simpl. by rewrite Ht.
Qed.

(** C10. [summarize_returns] needs a non-empty return series. On a
    frame with no rows it raises and prints nothing, and the exception
    is the IndexError of the first positional access whenever the
    configured dates parse; positions 0 and -1 are out of bounds in an
    empty series and in bounds in every non-empty one, where the call
    goes through. *)
Theorem summary_needs_a_row {F : Type} `{FloatOps F} `{Platform F} :
  (forall (returns : loc) (config : AnalysisConfig) (s : State F) (f : Frame F),
      heap s !! returns = Some f ->
      lookup_column "adj_close" (columns f) = Some [] ->
      exists e,
        summarize_returns returns config s = (Raise e, s)
        /\ (forall d, date_range config = Ok d -> e = IndexError))
  /\ (iloc ([] : list F) 0 = None /\ iloc ([] : list F) (-1) = None)
  /\ (forall xs : list F,
         xs <> [] -> iloc xs 0 = head xs /\ iloc xs (-1) = last xs
                     /\ is_Some (iloc xs 0) /\ is_Some (iloc xs (-1)))
  /\ (forall (rs : list (ReturnPoint F)) (returns : loc)
             (config : AnalysisConfig) (s : State F) d,
         rs <> [] ->
         heap s !! returns = Some (return_frame rs) ->
         date_range config = Ok d ->
         (summarize_returns returns config s).1 = Ok tt).
Proof.
  split; [|split; [|split]].
  - intros r config s f Hl Ha. unfold summarize_returns.
    destruct (date_range config) as [[st en]|e0] eqn:Ed.
    + exists IndexError. split; [|done].
      rewrite (run_bind_ok _ _ _ _ _ (run_lift_ok _ _ s eq_refl)).
      rewrite (run_bind_ok _ _ _ _ _ (run_df_getitem _ _ _ _ _ Hl Ha)).
      by rewrite (run_bind_raise _ _ _ _ _ (run_series_iloc_None [] 0 s eq_refl)).
    + exists e0. split; [|done].
      by rewrite (run_bind_raise _ _ s s e0).
  - done.
  - intros xs Hxs. rewrite iloc_first, iloc_last.
    split; [done|]. split; [done|].
    destruct xs as [|x t]; [done|]. split; [by eexists|].
    rewrite last_lookup. apply lookup_lt_is_Some. simpl. lia.
  - intros rs r config s [st en] Hrs Hl Hd.
    destruct rs as [|r0 t] eqn:Ers; [done|]. rewrite <- Ers in *.
    assert (Hlast : is_Some (last rs)).
    { rewrite last_lookup. apply lookup_lt_is_Some. subst rs. simpl. lia. }
    destruct Hlast as [rn Hn].
    rewrite (run_summarize_series rs r0 rn r config s st en); subst rs; done.
Qed.

(* ================================================================== *)
(** * Runs on the sample platform *)
(* ================================================================== *)

(** The sample provider has no rows for a range starting on
    2025-10-27: the run ends there, with nothing printed. *)
Lemma no_data_aborts_the_run_witness :
  (main Pad empty_range_argv no_objects).1 = Raise NoDataError
  /\ trace (main Pad empty_range_argv no_objects).2 = [].
Proof.
  apply (proj2 (no_data_aborts_the_run Pad no_objects) empty_range_argv).
  reflexivity.
Defined.

(** The frame of the series 100, 110, 99 is still at its place after
    [compute_returns]. *)
Lemma price_series_is_never_mutated_witness :
  heap (compute_returns Pad 0%nat (fresh_state (price_frame scenario_exact))).2 !! 0%nat
  = Some (price_frame scenario_exact).
Proof.
  apply (proj1 (price_series_is_never_mutated Pad)). reflexivity.
Defined.

(** The summary of the return series of 100, 110, 99. *)
Lemma summary_reads_first_and_last_witness :
  summarize_returns 0%nat (parse_args default_argv) (fresh_state (return_frame sample_returns))
  = (Ok tt,
     {| heap := {[ 0%nat := return_frame sample_returns ]};
        trace := [Printed "Summary for ^IXIC from 2005-01-01 to 2025-10-28:";
                  Printed "  Starting adjusted close: $100/1";
                  Printed "  Ending adjusted close:   $99/1";
                  Printed "  Total cumulative return: -1/100"] |}).
Proof.
  apply (proj1 (summary_reads_first_and_last
                  (parse_args default_argv)
                  ("2005-01-01" : @DateTime xnum sample_platform)
                  ("2025-10-28" : @DateTime xnum sample_platform)
                  sample_returns
                  (mkReturnPoint 1%Z (Num 100) (Num 0) (Num 0))
                  (mkReturnPoint 3%Z (Num 99) (Num (-1 # 10)) (Num (-1 # 100)))
                  eq_refl eq_refl eq_refl)).
  reflexivity.
Defined.

(** The summary of a return series with no rows. *)
Lemma summary_needs_a_row_witness :
  exists e,
    summarize_returns 0%nat (parse_args default_argv) (fresh_state (return_frame []))
    = (Raise e, fresh_state (return_frame []))
    /\ (forall d, date_range (parse_args default_argv) = Ok d -> e = IndexError).
Proof.
  apply (proj1 summary_needs_a_row 0%nat (parse_args default_argv)
               (fresh_state (return_frame [])) (return_frame [])); reflexivity.
Defined.

(** The run on the sample platform with the default command line. *)
Example default_run :
  exists s,
    main Pad default_argv no_objects = (Ok tt, s)
    /\ take 4 (trace s)
       = [Printed "Summary for ^IXIC from 2005-01-01 to 2025-10-28:";
          Printed "  Starting adjusted close: $100/1";
          Printed "  Ending adjusted close:   $99/1";
          Printed "  Total cumulative return: -1/100"]
    /\ length (trace s) = 5%nat.
Proof. eexists. split; [vm_compute; reflexivity|]. split; reflexivity. Qed.

(* ================================================================== *)
(** * The fetcher, case by case *)
(* ================================================================== *)

Section FetcherCases.
Context {F : Type} `{FloatOps F} `{Platform F}.

Lemma select_adj_close (cols : list (string * list F)) (v : list F) :
  lookup_column "Adj Close" cols = Some v ->
  select_columns ["Adj Close"] cols = inr [("Adj Close", v)].
Proof. intros E. simpl. by rewrite E. Qed.

Lemma select_adj_close_missing (cols : list (string * list F)) :
  lookup_column "Adj Close" cols = None ->
  select_columns ["Adj Close"] cols = inl "Adj Close".
Proof. intros E. simpl. by rewrite E. Qed.

(** The run of the fetcher on a table that has rows and the column. *)
Lemma fetch_price_history_ok (config : AnalysisConfig) (s : State F)
      (table : Frame F) (v : list F) :
  download (ticker config) (start_date config) (end_date config) = inr table ->
  frame_empty table = false ->
  lookup_column "Adj Close" (columns table) = Some v ->
  let h0 := <[fresh (dom (heap s)) := table]> (heap s) in
  let h1 := <[fresh (dom h0) := {| index := index table;
                                   columns := [("Adj Close", v)] |}]> h0 in
  fetch_price_history config s
  = (Ok (fresh (dom h1)),
     {| heap := <[fresh (dom h1) := {| index := index table;
                                       columns := [("adj_close", v)] |}]> h1;
        trace := trace s |}).
Proof.
  intros Hd He Hv h0 h1.
  destruct (fetch_price_history_run config s)
    as [p Hd'|t Hd' He'|t k Hd' He' Hk|t c Hd' He' Hc]; try congruence.
  - assert (t = table) by congruence. subst t.
    rewrite (select_adj_close _ _ Hv) in Hk. discriminate.
  - assert (t = table) by congruence. subst t.
    rewrite (select_adj_close _ _ Hv) in Hc. injection Hc as <-.
    reflexivity.
Qed.

End FetcherCases.

(** X1. When the provider returns a table with at least one row and a
    column "Adj Close", the fetcher returns a new frame with the index of
    the table and that column alone, renamed "adj_close"; the other
    columns are gone, every object that existed is untouched and nothing
    is printed. *)
Theorem fetch_keeps_adjusted_close_only {F : Type} `{FloatOps F} `{Platform F}
        (config : AnalysisConfig) (s : State F) (table : Frame F) (v : list F) :
  download (ticker config) (start_date config) (end_date config) = inr table ->
  frame_empty table = false ->
  lookup_column "Adj Close" (columns table) = Some v ->
  exists l s',
    fetch_price_history config s = (Ok l, s')
    /\ heap s' !! l = Some {| index := index table; columns := [("adj_close", v)] |}
    /\ heap s !! l = None
    /\ untouched s s'
    /\ trace s' = trace s.
Proof.
  intros Hd He Hv.
  rewrite (fetch_price_history_ok config s table v Hd He Hv).
  set (h0 := <[_ := table]> (heap s)).
  set (h1 := <[_ := _]> h0).
  eexists _, _. split; [reflexivity|]. cbn [heap trace].
  assert (U0 : forall l f, heap s !! l = Some f -> h0 !! l = Some f).
  { apply (untouched_alloc s table). }
  assert (U1 : forall l f, h0 !! l = Some f -> h1 !! l = Some f).
  { apply (untouched_alloc {| heap := h0; trace := trace s |}). }
  split; [apply lookup_insert_eq|]. split; [|split; [|done]].
  - destruct (heap s !! fresh (dom h1)) eqn:E; [|done].
    apply U0, U1 in E. by rewrite fresh_unused in E.
  - intros l f Hl. cbn [heap].
    apply (untouched_alloc {| heap := h1; trace := trace s |}). cbn [heap].
    by apply U1, U0.
Qed.

(** The sample provider's table has three columns; one is left. *)
Lemma fetch_keeps_adjusted_close_only_witness :
  exists l s',
    fetch_price_history (parse_args default_argv) no_objects = (Ok l, s')
    /\ heap s' !! l
       = Some {| index := [1; 2; 3]%Z;
                 columns := [("adj_close", [Num 100; Num 110; Num 99])] |}
    /\ heap no_objects !! l = None
    /\ untouched no_objects s'
    /\ trace s' = trace no_objects.
Proof.
  apply (fetch_keeps_adjusted_close_only (parse_args default_argv) no_objects
           sample_table [Num 100; Num 110; Num 99]); reflexivity.
Defined.

(** X2. The fetcher's other failures: a failure of the provider comes
    through as it is, with no object created; a table that has rows but
    no column "Adj Close" ends in a KeyError. Neither prints
    anything. *)
Theorem fetch_failures {F : Type} `{FloatOps F} `{Platform F}
        (config : AnalysisConfig) (s : State F) :
  (forall payload,
      download (ticker config) (start_date config) (end_date config) = inl payload ->
      fetch_price_history config s = (Raise (ProviderError payload), s))
  /\ (forall table,
         download (ticker config) (start_date config) (end_date config) = inr table ->
         frame_empty table = false ->
         lookup_column "Adj Close" (columns table) = None ->
         (exists k, (fetch_price_history config s).1 = Raise (KeyError k))
         /\ trace (fetch_price_history config s).2 = trace s).
Proof.
  split.
  - intros payload Hd.
    destruct (fetch_price_history_run config s)
      as [p Hd'|t Hd' He'|t k Hd' He' Hk|t c Hd' He' Hc]; congruence.
  - intros table Hd He Hv.
    destruct (fetch_price_history_run config s)
      as [p Hd'|t Hd' He'|t k Hd' He' Hk|t c Hd' He' Hc]; try congruence.
    + split; [by exists k|done].
    + assert (t = table) by congruence. subst t.
      rewrite (select_adj_close_missing _ Hv) in Hc. discriminate.
Qed.

(** A table of closes and volumes only. *)
Lemma fetch_failures_witness :
  (exists k,
      (@fetch_price_history xnum bare_platform (parse_args default_argv) no_objects).1
      = Raise (KeyError k))
  /\ trace (@fetch_price_history xnum bare_platform (parse_args default_argv) no_objects).2
     = trace no_objects.
Proof.
  apply (proj2 (@fetch_failures xnum xnum_ops bare_platform
                  (parse_args default_argv) no_objects) bare_table);
    reflexivity.
Defined.

(* ================================================================== *)
(** * The calculator on any series *)
(* ================================================================== *)

Section CalculatorCases.
Context {F : Type} `{FloatOps F}.

Lemma rows_notna fm (ps : list (PricePoint F)) prev acc first :
  Forall (fun r => isnan (rp_adjusted_close r) = false
                   /\ isnan (rp_daily_return r) = false
                   /\ isnan (rp_cumulative_return r) = false)
         (rows fm prev acc first ps).
Proof.
  revert prev acc first. induction ps as [|p t IH]; intros prev acc first.
  - constructor.
  - rewrite rows_cons. cbv zeta.
    match goal with |- context [if ?b then _ else _] => destruct b eqn:Eb end;
      [|apply IH].
    constructor; [|apply IH]. simpl.
    apply andb_true_iff in Eb as [E1 Eb].
    apply andb_true_iff in Eb as [E2 Eb].
    apply andb_true_iff in Eb as [E3 _].
    apply negb_true_iff in E1. apply negb_true_iff in E2.
    apply negb_true_iff in E3. done.
Qed.

Lemma rows_fill_irrelevant (ps : list (PricePoint F)) prev acc first :
  Forall (fun p => isnan (pp_adjusted_close p) = false) ps ->
  rows Pad prev acc first ps = rows NoFill prev acc first ps.
Proof.
  revert prev acc first. induction ps as [|p t IH]; intros prev acc first Hps; [done|].
  apply Forall_cons in Hps as [Hp Ht].
  rewrite !rows_cons. cbv zeta. rewrite Hp. by rewrite IH.
Qed.

(** A frame without the price column: the copy is made, and reading the
    column from it fails. *)
Lemma compute_returns_no_column fm (l : loc) (s : State F) (f : Frame F) :
  heap s !! l = Some f ->
  lookup_column "adj_close" (columns f) = None ->
  compute_returns fm l s
  = (Raise (KeyError "adj_close"),
     {| heap := <[fresh (dom (heap s)) := f]> (heap s); trace := trace s |}).
Proof.
  intros Hl Hc. unfold compute_returns.
  rewrite (run_bind_ok _ _ _ _ _ (run_df_copy _ _ _ Hl)).
  apply run_bind_raise. unfold df_getitem.
  erewrite run_bind_ok; last by (apply run_load; apply lookup_insert_eq).
  by rewrite Hc.
Qed.

End CalculatorCases.

(** X3. Whatever the price series and the float arithmetic, no row of
    the return series [compute] produces has a missing value, in any of
    its three columns. *)
Theorem result_has_no_missing_value {F : Type} `{FloatOps F}
        (fm : FillMethod) (ps : list (PricePoint F)) :
  exists rs,
    compute fm ps = Some rs
    /\ forall r, r ∈ rs ->
                 isnan (rp_adjusted_close r) = false
                 /\ isnan (rp_daily_return r) = false
                 /\ isnan (rp_cumulative_return r) = false.
Proof.
  exists (rows fm fnan lit1 true ps). split; [apply compute_rows|].
  apply Forall_forall, rows_notna.
Qed.

(** X4. On a price series with no missing value the result does not
    depend on how [pct_change] fills gaps, in any float arithmetic; with
    a gap it can: after 100, a gap and 121, padding reports a daily
    return of 21/100 on the third day and no padding reports 0. *)
Theorem fill_method_matters_only_with_gaps :
  (forall (F : Type) (ops : FloatOps F) (ps : list (PricePoint F)),
      Forall (fun p => isnan (pp_adjusted_close p) = false) ps ->
      compute Pad ps = compute NoFill ps)
  /\ (exists rs rs' r r',
         compute Pad gap_series = Some rs /\ rs !! 1%nat = Some r
         /\ compute NoFill gap_series = Some rs' /\ rs' !! 1%nat = Some r'
         /\ rp_date r = 3%Z /\ rp_date r' = 3%Z
         /\ xeq (rp_daily_return r) (Num (21 # 100))
         /\ xeq (rp_daily_return r') (Num 0)).
Proof.
  split.
  - intros F ops ps Hps. rewrite !compute_rows. f_equal.
    by apply rows_fill_irrelevant.
  - eexists _, _, _, _. split; [vm_compute; reflexivity|].
    split; [reflexivity|]. split; [vm_compute; reflexivity|].
    split; [reflexivity|]. repeat split.
Qed.

(** X8. Given a frame that has no column "adj_close", [compute_returns]
    raises the KeyError of that name after it has made its copy; the
    frame it was given, and every other object, is untouched and nothing
    is printed. *)
Theorem compute_needs_the_price_column {F : Type} `{FloatOps F}
        (fm : FillMethod) (price_history : loc) (s : State F) (f : Frame F) :
  heap s !! price_history = Some f ->
  lookup_column "adj_close" (columns f) = None ->
  (compute_returns fm price_history s).1 = Raise (KeyError "adj_close")
  /\ untouched s (compute_returns fm price_history s).2
  /\ trace (compute_returns fm price_history s).2 = trace s.
Proof.
  intros Hl Hc. rewrite (compute_returns_no_column fm _ _ _ Hl Hc).
  split; [done|]. split; [|done]. apply untouched_alloc.
Qed.

(** The provider's own table still calls the column "Adj Close". *)
Lemma compute_needs_the_price_column_witness :
  (compute_returns Pad 0%nat (fresh_state sample_table)).1 = Raise (KeyError "adj_close")
  /\ untouched (fresh_state sample_table)
               (compute_returns Pad 0%nat (fresh_state sample_table)).2
  /\ trace (compute_returns Pad 0%nat (fresh_state sample_table)).2
     = trace (fresh_state sample_table).
Proof.
  apply (compute_needs_the_price_column Pad 0%nat (fresh_state sample_table)
           sample_table); reflexivity.
Defined.

(** X7. Whenever the first adjusted close is not missing, whatever the
    other prices are, the return series starts with the first day of the
    input, at daily return 0 and cumulative return 0; so the result has
    a row for the summary to read. Arithmetic is exact. *)
Theorem first_row_is_kept
        (fm : FillMethod) (p : PricePoint xnum) (t : list (PricePoint xnum)) :
  xisnan (pp_adjusted_close p) = false ->
  exists c rest,
    compute fm (p :: t)
    = Some (mkReturnPoint (pp_date p) (pp_adjusted_close p) (Num 0) (Num c) :: rest)
    /\ (c == 0)%Q.
Proof.
  intros Hp. rewrite compute_exact, rows_exact_cons. cbv zeta.
  assert (Ed : xdata fm NaN (pp_adjusted_close p) = pp_adjusted_close p).
  { destruct fm; simpl; [by rewrite Hp|done]. }
  assert (Edaily : xdaily fm NaN (pp_adjusted_close p) = Num 0).
  { unfold xdaily. rewrite Ed. by destruct (pp_adjusted_close p). }
  rewrite Ed, Edaily, Hp. simpl.
  eexists _, _. split; [reflexivity|]. ring.
Qed.

(** A first price followed by a zero and a gap. *)
Lemma first_row_is_kept_witness :
  exists c rest,
    compute Pad [qprice 1 100; qprice 2 0; mkPricePoint 3%Z NaN]
    = Some (mkReturnPoint 1%Z (Num 100) (Num 0) (Num c) :: rest)
    /\ (c == 0)%Q.
Proof.
  apply (first_row_is_kept Pad (qprice 1 100) [qprice 2 0; mkPricePoint 3%Z NaN]).
  reflexivity.
Defined.

(* ================================================================== *)
(** * Reporter and plotter, case by case *)
(* ================================================================== *)

Section ReporterCases.
Context {F : Type} `{FloatOps F} `{Platform F}.

Lemma run_df_getitem_no_column (l : loc) (name : string) (s : State F) (f : Frame F) :
  heap s !! l = Some f ->
  lookup_column name (columns f) = None ->
  df_getitem l name s = (Raise (KeyError name), s).
Proof.
  intros E Ec. unfold df_getitem.
  rewrite (run_bind_ok _ _ _ _ _ (run_load _ _ _ E)). by rewrite Ec.
Qed.

(** A run of [plot_returns] that gets through. *)
Lemma run_plot_returns (l : loc) (config : AnalysisConfig) (s : State F)
      (f : Frame F) (a c : list F) :
  heap s !! l = Some f ->
  lookup_column "adj_close" (columns f) = Some a ->
  lookup_column "cumulative_return" (columns f) = Some c ->
  plot_returns l config s
  = (Ok tt, {| heap := heap s;
               trace := trace s ++ [Shown (chart config (index f) a c)] |}).
Proof.
  intros Hl Ha Hc. unfold plot_returns.
  rewrite (run_bind_ok _ _ _ _ _ (run_df_index _ _ _ Hl)).
  rewrite (run_bind_ok _ _ _ _ _ (run_df_getitem _ _ _ _ _ Hl Ha)).
  rewrite (run_bind_ok _ _ _ _ _ (run_df_index _ _ _ Hl)).
  rewrite (run_bind_ok _ _ _ _ _ (run_df_getitem _ _ _ _ _ Hl Hc)).
  reflexivity.
Qed.

End ReporterCases.

(** X10. On the frame [compute_returns] makes of any price series,
    [plot_returns] never fails: it shows exactly one figure and prints
    nothing. Both panels have the dates of the return series on the x
    axis; the first plots the adjusted closes, the second the cumulative
    returns times 100; the title of the first names the ticker. *)
Theorem chart_of_computed_returns {F : Type} `{FloatOps F}
        (fm : FillMethod) (ps : list (PricePoint F))
        (price_history : loc) (config : AnalysisConfig) (s : State F) :
  heap s !! price_history = Some (price_frame ps) ->
  exists rs fig,
    compute fm ps = Some rs
    /\ (let run := (compute_returns fm price_history
                      ≫= fun returns => plot_returns returns config) s in
        run.1 = Ok tt /\ trace run.2 = (trace s ++ [Shown fig])%list)
    /\ panel_x (price_ax fig) = map rp_date rs
    /\ panel_y (price_ax fig) = map rp_adjusted_close rs
    /\ panel_x (cum_ax fig) = map rp_date rs
    /\ panel_y (cum_ax fig) = map (fun r => fmul (rp_cumulative_return r) lit100) rs
    /\ panel_title (price_ax fig) = ticker config ++ " Adjusted Close Price".
Proof.
  intros Hl.
  destruct (compute_returns_series fm price_history s ps Hl)
    as (l' & s' & Hrun & Hl' & _ & Ht).
  set (rs := rows fm fnan lit1 true ps) in *.
  exists rs, (chart config (map rp_date rs) (map rp_adjusted_close rs)
                    (map rp_cumulative_return rs)).
  split; [apply compute_rows|]. split.
  - cbv zeta. rewrite (run_bind_ok _ _ _ _ _ Hrun).
    rewrite (run_plot_returns l' config s' (return_frame rs)
               (map rp_adjusted_close rs) (map rp_cumulative_return rs));
      [|done|reflexivity|reflexivity].
    simpl. by rewrite Ht.
  - simpl. repeat (split; [reflexivity|]). split; [|reflexivity].
    unfold mul_scalar. by rewrite map_map.
Qed.

(** The chart of 100, 110, 99. *)
Lemma chart_of_computed_returns_witness :
  exists rs fig,
    compute Pad scenario_exact = Some rs
    /\ (let run := (compute_returns Pad 0%nat
                      ≫= fun returns => plot_returns returns (parse_args default_argv))
                     (fresh_state (price_frame scenario_exact)) in
        run.1 = Ok tt
        /\ trace run.2
           = (trace (fresh_state (price_frame scenario_exact)) ++ [Shown fig])%list)
    /\ panel_x (price_ax fig) = map rp_date rs
    /\ panel_y (price_ax fig) = map rp_adjusted_close rs
    /\ panel_x (cum_ax fig) = map rp_date rs
    /\ panel_y (cum_ax fig) = map (fun r => fmul (rp_cumulative_return r) lit100) rs
    /\ panel_title (price_ax fig)
       = ticker (parse_args default_argv) ++ " Adjusted Close Price".
Proof.
  apply (chart_of_computed_returns Pad scenario_exact 0%nat
           (parse_args default_argv) (fresh_state (price_frame scenario_exact))).
  reflexivity.
Defined.

(** X11. [plot_returns] shows a figure or nothing: given a frame that
    lacks one of the two columns it reads it raises the KeyError of
    that column, "adj_close" first, with the state as it was; given both
    it shows one figure whose panels are as long as the columns it was
    given, and changes no object. *)
Theorem chart_needs_both_columns {F : Type} `{FloatOps F}
        (returns : loc) (config : AnalysisConfig) (s : State F) (f : Frame F) :
  heap s !! returns = Some f ->
  (lookup_column "adj_close" (columns f) = None ->
   plot_returns returns config s = (Raise (KeyError "adj_close"), s))
  /\ (forall a,
         lookup_column "adj_close" (columns f) = Some a ->
         lookup_column "cumulative_return" (columns f) = None ->
         plot_returns returns config s = (Raise (KeyError "cumulative_return"), s))
  /\ (forall a c,
         lookup_column "adj_close" (columns f) = Some a ->
         lookup_column "cumulative_return" (columns f) = Some c ->
         exists fig,
           plot_returns returns config s
           = (Ok tt, {| heap := heap s; trace := trace s ++ [Shown fig] |})
           /\ panel_x (price_ax fig) = index f
           /\ panel_x (cum_ax fig) = index f
           /\ panel_y (price_ax fig) = a
           /\ length (panel_y (cum_ax fig)) = length c).
Proof.
  intros Hl. split; [|split].
  - intros Ha. unfold plot_returns.
    rewrite (run_bind_ok _ _ _ _ _ (run_df_index _ _ _ Hl)).
    apply run_bind_raise. by apply (run_df_getitem_no_column _ _ _ f).
  - intros a Ha Hc. unfold plot_returns.
    rewrite (run_bind_ok _ _ _ _ _ (run_df_index _ _ _ Hl)).
    rewrite (run_bind_ok _ _ _ _ _ (run_df_getitem _ _ _ _ _ Hl Ha)).
    rewrite (run_bind_ok _ _ _ _ _ (run_df_index _ _ _ Hl)).
    apply run_bind_raise. by apply (run_df_getitem_no_column _ _ _ f).
  - intros a c Ha Hc. exists (chart config (index f) a c).
    split; [by apply run_plot_returns|]. simpl.
    repeat (split; [reflexivity|]). unfold mul_scalar. by rewrite length_map.
Qed.

(** The price frame has no cumulative returns yet. *)
Lemma chart_needs_both_columns_witness :
  plot_returns 0%nat (parse_args default_argv)
               (fresh_state (price_frame scenario_exact))
  = (Raise (KeyError "cumulative_return"), fresh_state (price_frame scenario_exact)).
Proof.
  apply (proj1 (proj2 (chart_needs_both_columns 0%nat (parse_args default_argv)
                         (fresh_state (price_frame scenario_exact))
                         (price_frame scenario_exact) eq_refl))
               (map pp_adjusted_close scenario_exact)); reflexivity.
Defined.

(* ================================================================== *)
(** * The whole run *)
(* ================================================================== *)

Section WholeRun.
Context {F : Type} `{FloatOps F} `{Platform F}.

Lemma frame_not_empty (f : Frame F) (d : Timestamp) (ds : list Timestamp) name v :
  index f = d :: ds ->
  lookup_column name (columns f) = Some v ->
  frame_empty f = false.
Proof.
  intros Hi Hv. unfold frame_empty. rewrite Hi.
  by destruct (columns f).
Qed.

(** The run up to the reporter, on a table whose column has the length
    of its index. *)
Lemma main_until_summary fm (argv : Argv) (s : State F)
      (table : Frame F) (v : list F) :
  download (ticker (parse_args argv)) (start_date (parse_args argv))
           (end_date (parse_args argv)) = inr table ->
  frame_empty table = false ->
  lookup_column "Adj Close" (columns table) = Some v ->
  length v = length (index table) ->
  exists l r s1 s2,
    fetch_price_history (parse_args argv) s = (Ok l, s1)
    /\ compute_returns fm l s1 = (Ok r, s2)
    /\ heap s2 !! fresh (dom (heap s)) = Some table
    /\ heap s2 !! r
       = Some (frame_dropna
                 (full_frame fm {| index := index table;
                                   columns := [("adj_close", v)] |} v))
    /\ heap s !! r = None
    /\ trace s2 = trace s.
Proof.
  intros Hd He Hv Hlen.
  pose proof (fetch_price_history_ok (parse_args argv) s table v Hd He Hv) as Hf.
  cbv zeta in Hf.
  set (f := {| index := index table; columns := [("adj_close", v)] |}) in *.
  set (h0 := <[fresh (dom (heap s)) := table]> (heap s)) in *.
  set (h1 := <[_ := _]> h0) in *.
  set (l := fresh (dom h1)) in *.
  set (s1 := {| heap := <[l := f]> h1; trace := trace s |}) in *.
  assert (Hl : heap s1 !! l = Some f) by apply lookup_insert_eq.
  pose proof (compute_returns_run fm l s1 f v Hl eq_refl Hlen) as Hc.
  cbv zeta in Hc.
  eexists l, _, s1, _. split; [exact Hf|]. split; [exact Hc|].
  cbn [heap trace].
  assert (U1 : untouched s s1).
  { apply (untouched_trans _ {| heap := h0; trace := trace s |});
      [apply untouched_alloc|].
    apply (untouched_trans _ {| heap := h1; trace := trace s |});
      [apply (untouched_alloc {| heap := h0; trace := trace s |})
      |apply (untouched_alloc {| heap := h1; trace := trace s |})]. }
  assert (U0 : untouched {| heap := h0; trace := trace s |}
                         (compute_returns fm l s1).2).
  { apply (untouched_trans _ s1); [|apply compute_returns_frame].
    apply (untouched_trans _ {| heap := h1; trace := trace s |});
      [apply (untouched_alloc {| heap := h0; trace := trace s |})
      |apply (untouched_alloc {| heap := h1; trace := trace s |})]. }
  rewrite Hc in U0.
  split; [apply U0, lookup_insert_eq|].
  split; [apply lookup_insert_eq|]. split; [|done].
  match goal with |- heap s !! ?r = None => destruct (heap s !! r) eqn:E end; [|done].
  apply U1 in E.
  match type of E with heap s1 !! fresh (dom ?h) = _ =>
    assert (E' : h !! fresh (dom h) = Some f0) end.
  { rewrite lookup_insert_ne; [exact E|].
    intros E2. rewrite <- E2 in E. cbn [heap] in E.
    by rewrite fresh_unused in E. }
  by rewrite fresh_unused in E'.
Qed.

End WholeRun.

(** X13. The configured dates are checked last. When the provider
    returns a table with rows and an "Adj Close" column as long as its
    index, and a configured date does not parse, the run downloads the
    table and computes the returns first, and only then ends in the
    ValueError of the date parser, with nothing printed or shown. *)
Theorem bad_date_is_found_after_download {F : Type} `{FloatOps F} `{Platform F}
        (fm : FillMethod) (argv : Argv) (s : State F)
        (table : Frame F) (v : list F) (e : Exn) :
  download (ticker (parse_args argv)) (start_date (parse_args argv))
           (end_date (parse_args argv)) = inr table ->
  frame_empty table = false ->
  lookup_column "Adj Close" (columns table) = Some v ->
  length v = length (index table) ->
  date_range (parse_args argv) = Raise e ->
  (main fm argv s).1 = Raise e
  /\ (exists msg, e = ValueError msg)
  /\ trace (main fm argv s).2 = trace s
  /\ heap (main fm argv s).2 !! fresh (dom (heap s)) = Some table
  /\ (exists returns f,
         heap (main fm argv s).2 !! returns = Some f
         /\ heap s !! returns = None
         /\ is_Some (lookup_column "cumulative_return" (columns f))).
Proof.
  intros Hd He Hv Hlen Hr.
  destruct (main_until_summary fm argv s table v Hd He Hv Hlen)
    as (l & r & s1 & s2 & Hf & Hc & Ht & Hret & Hnew & Htr).
  assert (Hm : main fm argv s = (Raise e, s2)).
  { unfold main. rewrite (run_bind_ok _ _ _ _ _ Hf), (run_bind_ok _ _ _ _ _ Hc).
    apply run_bind_raise. unfold summarize_returns. apply run_bind_raise.
    by rewrite Hr. }
  rewrite Hm. cbn [fst snd]. split; [done|]. split.
  - unfold date_range in Hr.
    destruct (fromisoformat (start_date (parse_args argv)));
      [destruct (fromisoformat (end_date (parse_args argv)))|];
      simplify_eq; by eexists.
  - split; [done|]. split; [done|].
    eexists r, _. split; [exact Hret|]. split; [exact Hnew|]. by eexists.
Qed.

(** An end date that is no date, on the sample platform. *)
Lemma bad_date_is_found_after_download_witness :
  (main Pad bad_end_argv no_objects).1
  = Raise (ValueError "Invalid isoformat string: 'tomorrow'")
  /\ (exists msg, ValueError "Invalid isoformat string: 'tomorrow'" = ValueError msg)
  /\ trace (main Pad bad_end_argv no_objects).2 = trace no_objects
  /\ heap (main Pad bad_end_argv no_objects).2 !! fresh (dom (heap no_objects))
     = Some sample_table
  /\ (exists returns f,
         heap (main Pad bad_end_argv no_objects).2 !! returns = Some f
         /\ heap no_objects !! returns = None
         /\ is_Some (lookup_column "cumulative_return" (columns f))).
Proof.
  apply (bad_date_is_found_after_download Pad bad_end_argv no_objects
           sample_table [Num 100; Num 110; Num 99]); reflexivity.
Defined.

Lemma dropna_price_frame {F : Type} `{FloatOps F}
      (fm : FillMethod) (ps : list (PricePoint F)) :
  frame_dropna (full_frame fm (price_frame ps) (map pp_adjusted_close ps))
  = return_frame (rows fm fnan lit1 true ps).
Proof.
  rewrite dropna_full_frame; [|simpl; by rewrite !length_map].
  f_equal. rewrite <- (columns_rows fm ps fnan lit1 true). cbv zeta.
  unfold daily_column, cumulative_column, pct_change. simpl index.
  destruct fm; reflexivity.
Qed.

(** X14. The whole run on good data, in any float arithmetic. When
    the provider's table holds a price series, both configured dates
    parse and the return series computed from the prices has a first and
    a last row, the run returns; it prints the header, the adjusted
    close of the first row, the adjusted close of the last row and the
    cumulative return of the last row, and then shows the chart of the
    return series. *)
Theorem run_reports_first_and_last {F : Type} `{FloatOps F} `{Platform F}
        (fm : FillMethod) (argv : Argv) (s : State F)
        (table : Frame F) (ps : list (PricePoint F))
        (rs : list (ReturnPoint F)) (r0 rn : ReturnPoint F) (st en : DateTime) :
  download (ticker (parse_args argv)) (start_date (parse_args argv))
           (end_date (parse_args argv)) = inr table ->
  index table = map pp_date ps ->
  lookup_column "Adj Close" (columns table) = Some (map pp_adjusted_close ps) ->
  compute fm ps = Some rs ->
  head rs = Some r0 -> last rs = Some rn ->
  date_range (parse_args argv) = Ok (st, en) ->
  exists fig,
    (main fm argv s).1 = Ok tt
    /\ trace (main fm argv s).2
       = (trace s ++
          [Printed (summary_header (parse_args argv) st en);
           Printed ("  Starting adjusted close: $"
                    ++ format_money (rp_adjusted_close r0));
           Printed ("  Ending adjusted close:   $"
                    ++ format_money (rp_adjusted_close rn));
           Printed ("  Total cumulative return: "
                    ++ format_percent (rp_cumulative_return rn));
           Shown fig])%list
    /\ panel_x (price_ax fig) = map rp_date rs
    /\ panel_y (price_ax fig) = map rp_adjusted_close rs
    /\ panel_x (cum_ax fig) = map rp_date rs
    /\ panel_y (cum_ax fig) = map (fun r => fmul (rp_cumulative_return r) lit100) rs.
Proof.
  intros Hd Hidx Hv Hrs Hr0 Hrn Hdates.
  rewrite compute_rows in Hrs. injection Hrs as Hrs.
  assert (Hne : ps <> []).
  { intros ->. by subst rs. }
  destruct ps as [|p t] eqn:Eps; [done|]. rewrite <- Eps in *.
  assert (He : frame_empty table = false).
  { apply (frame_not_empty table (pp_date p) (map pp_date t) "Adj Close"
             (map pp_adjusted_close ps)); [by rewrite Hidx, Eps|done]. }
  destruct (main_until_summary fm argv s table (map pp_adjusted_close ps) Hd He Hv)
    as (l & r & s1 & s2 & Hf & Hc & _ & Hret & _ & Htr).
  { by rewrite Hidx, !length_map. }
  rewrite Hidx in Hret.
  change {| index := map pp_date ps;
            columns := [("adj_close", map pp_adjusted_close ps)] |}
    with (price_frame ps) in Hret.
  rewrite dropna_price_frame, Hrs in Hret.
  exists (chart (parse_args argv) (map rp_date rs) (map rp_adjusted_close rs)
                (map rp_cumulative_return rs)).
  assert (Hm : main fm argv s
               = (Ok tt,
                  {| heap := heap s2;
                     trace := (trace s2 ++
                               summary_lines (parse_args argv) st en
                                 (rp_adjusted_close r0) (rp_adjusted_close rn)
                                 (rp_cumulative_return rn)) ++
                              [Shown (chart (parse_args argv) (map rp_date rs)
                                            (map rp_adjusted_close rs)
                                            (map rp_cumulative_return rs))] |})).
  { unfold main. rewrite (run_bind_ok _ _ _ _ _ Hf), (run_bind_ok _ _ _ _ _ Hc).
    rewrite (run_bind_ok _ _ _ _ _
               (run_summarize_series rs r0 rn r (parse_args argv) s2 st en
                  Hr0 Hrn Hret Hdates)).
    set (s3 := {| heap := heap s2; trace := _ |}).
    by rewrite (run_plot_returns r (parse_args argv) s3 (return_frame rs)
                  (map rp_adjusted_close rs) (map rp_cumulative_return rs)). }
  rewrite Hm. cbn [fst snd trace]. split; [done|]. split.
  - rewrite Htr. unfold summary_lines. by rewrite <- app_assoc.
  - simpl. repeat (split; [reflexivity|]). unfold mul_scalar. by rewrite map_map.
Qed.

(** The default run on the sample platform: from 100 to 99. *)
Lemma run_reports_first_and_last_witness :
  exists rs r0 rn fig,
    compute Pad scenario_exact = Some rs
    /\ head rs = Some r0 /\ last rs = Some rn
    /\ rp_adjusted_close r0 = Num 100 /\ rp_adjusted_close rn = Num 99
    /\ xeq (rp_cumulative_return rn) (Num (-1 # 100))
    /\ (main Pad default_argv no_objects).1 = Ok tt
    /\ trace (main Pad default_argv no_objects).2
       = (trace no_objects ++
          [Printed (summary_header (parse_args default_argv)
                      ("2005-01-01" : @DateTime xnum sample_platform)
                      ("2025-10-28" : @DateTime xnum sample_platform));
           Printed ("  Starting adjusted close: $"
                    ++ format_money (rp_adjusted_close r0));
           Printed ("  Ending adjusted close:   $"
                    ++ format_money (rp_adjusted_close rn));
           Printed ("  Total cumulative return: "
                    ++ format_percent (rp_cumulative_return rn));
           Shown fig])%list
    /\ panel_x (price_ax fig) = map rp_date rs
    /\ panel_y (price_ax fig) = map rp_adjusted_close rs.
Proof.
  set (rs := rows Pad NaN (Num 1) true scenario_exact).
  set (r0 := mkReturnPoint 1%Z (Num 100) (Num 0) (Num 0)).
  destruct (run_reports_first_and_last Pad default_argv no_objects sample_table
              scenario_exact rs (default r0 (head rs)) (default r0 (last rs))
              ("2005-01-01" : @DateTime xnum sample_platform)
              ("2025-10-28" : @DateTime xnum sample_platform))
    as (fig & Hrun & Htrace & Hx & Hy & _); try reflexivity.
  exists rs, (default r0 (head rs)), (default r0 (last rs)), fig.
  split; [reflexivity|]. split; [reflexivity|]. split; [reflexivity|].
  split; [reflexivity|]. split; [reflexivity|]. split; [reflexivity|].
  split; [exact Hrun|]. split; [exact Htrace|]. by split.
Defined.

Section Recompute.
Context {F : Type} `{FloatOps F}.

(** [compute_returns] on a frame that already has the two derived
    columns: they are overwritten where they stand. *)
Lemma compute_returns_rerun fm (l : loc) (s : State F) (f : Frame F)
      (xs d c : list F) :
  heap s !! l = Some f ->
  columns f = [("adj_close", xs); ("daily_return", d); ("cumulative_return", c)] ->
  length xs = length (index f) ->
  let l1 := fresh (dom (heap s)) in
  let h1 := <[l1 := full_frame fm f xs]> (heap s) in
  let l2 := fresh (dom h1) in
  compute_returns fm l s
  = (Ok l2, {| heap := <[l2 := frame_dropna (full_frame fm f xs)]> h1;
               trace := trace s |}).
Proof.
  intros Hl Hc Hlen l1 h1 l2. unfold compute_returns.
  rewrite (run_bind_ok _ _ _ _ _ (run_df_copy _ _ _ Hl)). fold l1.
  erewrite run_bind_ok; last first.
  { eapply run_df_getitem; [apply lookup_insert_eq | by rewrite Hc]. }
  erewrite run_bind_ok; last first.
  { eapply run_df_setitem; [apply lookup_insert_eq|].
    rewrite <- Hlen. apply length_daily_column. }
  erewrite run_bind_ok; last first.
  { eapply run_df_getitem; [apply lookup_insert_eq | simpl; by rewrite Hc]. }
  erewrite run_bind_ok; last first.
  { eapply run_df_setitem; [apply lookup_insert_eq|]. simpl.
    rewrite <- Hlen. apply length_cumulative_column. }
  erewrite run_df_dropna; last by apply lookup_insert_eq.
  simpl. rewrite !insert_insert_eq. unfold frame_setitem. simpl. rewrite Hc.
  reflexivity.
Qed.

Lemma rows_all_missing fm (ps : list (PricePoint F)) prev acc first :
  Forall (fun p => isnan (pp_adjusted_close p) = true) ps ->
  rows fm prev acc first ps = [].
Proof.
  revert prev acc first. induction ps as [|p t IH]; intros prev acc first Hps; [done|].
  apply Forall_cons in Hps as [Hp Ht].
  rewrite rows_cons. cbv zeta. rewrite Hp. simpl. by apply IH.
Qed.

End Recompute.

(** X15. Recomputing changes nothing on good data: applied to the
    return frame it has just made of a price series whose adjusted closes
    are all numbers other than zero, [compute_returns] overwrites the two
    derived columns where they stand and returns a frame equal to the
    one it was given. Arithmetic is exact. *)
Theorem recomputing_returns_is_idempotent
        (fm : FillMethod) (ps : list (PricePoint xnum))
        (price_history : loc) (s : State xnum) :
  Forall nonzero_price ps ->
  heap s !! price_history = Some (price_frame ps) ->
  exists rs once twice s1 s2,
    compute fm ps = Some rs
    /\ compute_returns fm price_history s = (Ok once, s1)
    /\ compute_returns fm once s1 = (Ok twice, s2)
    /\ heap s2 !! once = Some (return_frame rs)
    /\ heap s2 !! twice = Some (return_frame rs)
    /\ once <> twice.
Proof.
  intros Hps Hl.
  destruct (compute_returns_series fm price_history s ps Hl)
    as (once & s1 & Hrun & Hl1 & _ & _).
  change (rows fm fnan lit1 true ps) with (rows fm NaN (Num 1) true ps) in Hl1.
  destruct (rows_nonzero fm ps Hps) as (Hdate & Hadj & _).
  set (rs := rows fm NaN (Num 1) true ps) in *.
  assert (Hcols : columns (return_frame rs)
                  = [("adj_close", map pp_adjusted_close ps);
                     ("daily_return", map rp_daily_return rs);
                     ("cumulative_return", map rp_cumulative_return rs)]).
  { simpl. by rewrite Hadj. }
  assert (Hlen : length (map pp_adjusted_close ps) = length (index (return_frame rs))).
  { simpl. by rewrite Hdate, !length_map. }
  pose proof (compute_returns_rerun fm once s1 (return_frame rs)
                (map pp_adjusted_close ps) (map rp_daily_return rs)
                (map rp_cumulative_return rs) Hl1 Hcols Hlen) as Hre.
  cbv zeta in Hre.
  assert (Hsame : full_frame fm (return_frame rs) (map pp_adjusted_close ps)
                  = full_frame fm (price_frame ps) (map pp_adjusted_close ps)).
  { unfold full_frame. simpl. by rewrite Hdate. }
  rewrite Hsame, dropna_price_frame in Hre.
  change (rows fm fnan lit1 true ps) with rs in Hre.
  set (l1 := fresh (dom (heap s1))) in *.
  set (h1 := <[l1 := _]> (heap s1)) in *.
  assert (U : forall l f, heap s1 !! l = Some f -> h1 !! l = Some f).
  { apply (untouched_alloc s1). }
  assert (Hne : once <> fresh (dom h1)).
  { intros E. apply U in Hl1. rewrite E in Hl1. by rewrite fresh_unused in Hl1. }
  exists rs, once, (fresh (dom h1)), s1,
    {| heap := <[fresh (dom h1) := return_frame rs]> h1; trace := trace s1 |}.
  split; [apply compute_exact|]. split; [exact Hrun|]. split; [exact Hre|].
  cbn [heap]. split; [|split; [apply lookup_insert_eq|exact Hne]].
  rewrite lookup_insert_ne; [|done]. by apply U.
Qed.

(** The series 100, 110, 99, computed twice. *)
Lemma recomputing_returns_is_idempotent_witness :
  exists rs once twice s1 s2,
    compute Pad scenario_exact = Some rs
    /\ compute_returns Pad 0%nat (fresh_state (price_frame scenario_exact))
       = (Ok once, s1)
    /\ compute_returns Pad once s1 = (Ok twice, s2)
    /\ heap s2 !! once = Some (return_frame rs)
    /\ heap s2 !! twice = Some (return_frame rs)
    /\ once <> twice.
Proof.
  apply (recomputing_returns_is_idempotent Pad scenario_exact 0%nat
           (fresh_state (price_frame scenario_exact))).
  - repeat constructor; discriminate.
  - reflexivity.
Defined.

(** X16. When every adjusted close of the provider's table is missing,
    the fetcher is satisfied (the table has rows), [dropna] leaves the
    calculator with no row, and the run ends in the IndexError of the
    summary's first positional access (given dates that parse), not in
    the fetcher's no-data error; nothing is printed or shown. *)
Theorem all_missing_prices_end_in_index_error
        {F : Type} `{FloatOps F} `{Platform F}
        (fm : FillMethod) (argv : Argv) (s : State F)
        (table : Frame F) (ps : list (PricePoint F)) (d : DateTime * DateTime) :
  download (ticker (parse_args argv)) (start_date (parse_args argv))
           (end_date (parse_args argv)) = inr table ->
  ps <> [] ->
  index table = map pp_date ps ->
  lookup_column "Adj Close" (columns table) = Some (map pp_adjusted_close ps) ->
  Forall (fun p => isnan (pp_adjusted_close p) = true) ps ->
  date_range (parse_args argv) = Ok d ->
  compute fm ps = Some []
  /\ (main fm argv s).1 = Raise IndexError
  /\ trace (main fm argv s).2 = trace s.
Proof.
  intros Hd Hne Hidx Hv Hps Hdates.
  assert (Hrows : rows fm fnan lit1 true ps = []) by (by apply rows_all_missing).
  split; [by rewrite compute_rows, Hrows|].
  destruct ps as [|p t] eqn:Eps; [done|]. rewrite <- Eps in *.
  assert (He : frame_empty table = false).
  { apply (frame_not_empty table (pp_date p) (map pp_date t) "Adj Close"
             (map pp_adjusted_close ps)); [by rewrite Hidx, Eps|done]. }
  destruct (main_until_summary fm argv s table (map pp_adjusted_close ps) Hd He Hv)
    as (l & r & s1 & s2 & Hf & Hc & _ & Hret & _ & Htr).
  { by rewrite Hidx, !length_map. }
  rewrite Hidx in Hret.
  change {| index := map pp_date ps;
            columns := [("adj_close", map pp_adjusted_close ps)] |}
    with (price_frame ps) in Hret.
  rewrite dropna_price_frame, Hrows in Hret.
  assert (Hm : main fm argv s = (Raise IndexError, s2)).
  { unfold main. rewrite (run_bind_ok _ _ _ _ _ Hf), (run_bind_ok _ _ _ _ _ Hc).
    apply run_bind_raise. unfold summarize_returns.
    destruct d as [st en].
    rewrite (run_bind_ok _ _ _ _ _ (run_lift_ok _ _ s2 Hdates)).
    erewrite run_bind_ok; last first.
    { eapply run_df_getitem; [exact Hret|reflexivity]. }
    by apply run_bind_raise. }
  rewrite Hm. by split.
Qed.

(** Two days without a price. *)
Lemma all_missing_prices_end_in_index_error_witness :
  compute Pad [mkPricePoint 1%Z NaN; mkPricePoint 2%Z NaN] = Some []
  /\ (@main xnum xnum_ops missing_platform Pad default_argv no_objects).1
     = Raise IndexError
  /\ trace (@main xnum xnum_ops missing_platform Pad default_argv no_objects).2
     = trace no_objects.
Proof.
  apply (@all_missing_prices_end_in_index_error xnum xnum_ops missing_platform
           Pad default_argv no_objects missing_table
           [mkPricePoint 1%Z NaN; mkPricePoint 2%Z NaN]
           ("2005-01-01", "2025-10-28")); try reflexivity.
  - discriminate.
  - repeat constructor.
Defined.
